(** * Message intelligence: payload analysis and media-metadata inference

    A shallow embedding of [src/api/utils/message-intel.util.ts]:
    the payload flattener [collectFieldArrays], the two detector chains
    ([messageTypeDetectors], [detectByValues]), [analyzeMessagePayload] and
    [inferMediaMetadata], followed by the properties established about them.

    Conventions of the embedding.
    - JavaScript strings are modelled by [string]; the embedding covers the
      ASCII range, where [toLowerCase] only touches the letters [A]-[Z] and
      [length] counts characters.
    - A JavaScript value is a [JsValue]; an object is the list of its own
      enumerable entries in the order [Object.entries] yields them.
    - A property read on [null] or [undefined] throws a [TypeError]; code
      that can throw lives in the [Completion] monad.
    - The helpers imported from [class-validator] and [mime-types] are not
      part of the file: they are the fields of [Collaborators], and the
      properties hold whatever they answer. *)

From Stdlib Require Import String Ascii List ZArith Bool Lia.
From Stdlib Require Import DecimalString.
Import ListNotations.

Local Open Scope string_scope.
Local Open Scope Z_scope.

(** ** JavaScript values *)

Unset Elimination Schemes.
Inductive JsValue : Type :=
| JUndefined
| JNull
| JBool (b : bool)
| JNum (n : Z)
| JNaN
| JStr (s : string)
| JArr (items : list JsValue)
| JObj (entries : list (string * JsValue)).
Set Elimination Schemes.

(** [!!v] *)
Definition truthy (v : JsValue) : bool :=
  match v with
  | JUndefined | JNull | JNaN => false
  | JBool b => b
  | JNum n => negb (n =? 0)
  | JStr s => negb (s =? "")%string
  | JArr _ | JObj _ => true
  end.

(** [typeof v === 'object'] ([typeof null] is ['object'] too) *)
Definition typeofObject (v : JsValue) : bool :=
  match v with
  | JNull | JArr _ | JObj _ => true
  | _ => false
  end.

(** [a || b] *)
Definition jsOr (a b : JsValue) : JsValue := if truthy a then a else b.

(** ** Strings *)

Module Str.

Definition lowerChar (c : ascii) : ascii :=
  let n := N_of_ascii c in
  if ((65 <=? n) && (n <=? 90))%N then ascii_of_N (n + 32) else c.

(** [s.toLowerCase()] *)
Fixpoint toLowerCase (s : string) : string :=
  match s with
  | EmptyString => EmptyString
  | String c s' => String (lowerChar c) (toLowerCase s')
  end.

(** [s.startsWith(p)] *)
Definition startsWith (s p : string) : bool := String.prefix p s.

(** [s.includes(sub)] *)
Fixpoint includes (s sub : string) : bool :=
  startsWith s sub ||
  match s with
  | EmptyString => false
  | String _ s' => includes s' sub
  end.

Fixpoint lengthFrom (s : string) (n : Z) : Z :=
  match s with
  | EmptyString => n
  | String _ s' => lengthFrom s' (Z.succ n)
  end.

(** [s.length] *)
Definition length (s : string) : Z := lengthFrom s 0.

(** [s.split('.')]: the pieces between the dots, never an empty list. *)
Fixpoint splitDot (s : string) : list string :=
  match s with
  | EmptyString => [EmptyString]
  | String c s' =>
      if Ascii.eqb c "."%char then EmptyString :: splitDot s'
      else match splitDot s' with
           | [] => [String c EmptyString]
           | piece :: pieces => String c piece :: pieces
           end
  end.

(** [xs.pop()], as far as its value goes *)
Definition pop (xs : list string) : option string :=
  match rev xs with
  | [] => None
  | x :: _ => Some x
  end.

(** [`${n}`] for an array index *)
Definition ofIndex (n : nat) : string := NilZero.string_of_uint (Nat.to_uint n).

(** [n] copies of [c] *)
Definition replicate (c : ascii) (n : Z) : string :=
  Z.iter n (String c) EmptyString.

End Str.

(** ** The flattener *)

Record Accumulator : Type := mkAccumulator {
  accFieldNames : list string;
  accValues : list JsValue
}.

Definition emptyAccumulator : Accumulator := mkAccumulator [] [].

(** [accumulator.fieldNames.push(path); accumulator.values.push(value)] *)
Definition push (path : string) (value : JsValue) (acc : Accumulator) : Accumulator :=
  mkAccumulator (accFieldNames acc ++ [path]) (accValues acc ++ [value]).

(** [prefix ? `${prefix}.${key}` : key] *)
Definition joinPath (prefix key : string) : string :=
  if (prefix =? "")%string then key else prefix ++ "." ++ key.

(** [`${path}[${index}]`] *)
Definition indexPath (path : string) (index : nat) : string :=
  path ++ "[" ++ Str.ofIndex index ++ "]".

(** The two callbacks of [collectFieldArrays], over the function [recur]
    that stands for the recursive call.  The accumulator the source mutates
    in place is threaded through. *)
Section Callbacks.

Variable recur : JsValue -> string -> Accumulator -> Accumulator.

(** [value.forEach((item, index) => { ... })] *)
Fixpoint forEachItem (path : string) (items : list JsValue) (index : nat)
    (acc : Accumulator) {struct items} : Accumulator :=
  match items with
  | [] => acc
  | item :: rest =>
      let acc := push (indexPath path index) item acc in
      let acc :=
        if truthy item && typeofObject item
        then recur item (indexPath path index) acc
        else acc in
      forEachItem path rest (S index) acc
  end.

(** [([key, value]) => { ... }] *)
Definition onEntry (prefix key : string) (value : JsValue) (acc : Accumulator)
  : Accumulator :=
  let path := joinPath prefix key in
  let acc := push path value acc in
  match value with
  | JArr items => forEachItem path items O acc
  | _ =>
      if truthy value && typeofObject value
      then recur value path acc
      else acc
  end.

(** [Object.entries(payload).forEach(...)] on an object *)
Fixpoint forEachEntry (prefix : string) (entries : list (string * JsValue))
    (acc : Accumulator) {struct entries} : Accumulator :=
  match entries with
  | [] => acc
  | (key, value) :: rest => forEachEntry prefix rest (onEntry prefix key value acc)
  end.

(** [Object.entries(payload).forEach(...)] on an array, whose entries are
    its elements under the keys ["0"], ["1"], ... *)
Fixpoint forEachIndexed (prefix : string) (items : list JsValue) (index : nat)
    (acc : Accumulator) {struct items} : Accumulator :=
  match items with
  | [] => acc
  | value :: rest =>
      forEachIndexed prefix rest (S index) (onEntry prefix (Str.ofIndex index) value acc)
  end.

End Callbacks.

(** [collectFieldArrays(payload, prefix, accumulator)] *)
Fixpoint collectFieldArrays (payload : JsValue) (prefix : string) (acc : Accumulator)
  {struct payload} : Accumulator :=
  match payload with
  | JObj entries => forEachEntry collectFieldArrays prefix entries acc
  | JArr items => forEachIndexed collectFieldArrays prefix items O acc
  | _ => acc
  end.

(** ** The detector chains *)

Inductive MessageKind : Type :=
| sticker | reaction | template | buttons | list_ | location | contact
| poll | status | ptv | audio | media | text | unknown.

Record MessageAnalysis : Type := mkMessageAnalysis {
  fieldNames : list string;
  values : list JsValue;
  type : MessageKind
}.

Definition normaliseField (field : string) : string := Str.toLowerCase field.

(** [xs.some(p)] *)
Definition some {A : Type} (p : A -> bool) (xs : list A) : bool := existsb p xs.

(** [names.includes(x)] on an array of strings *)
Definition oneOf (names : list string) (x : string) : bool :=
  existsb (fun n => (n =? x)%string) names.

Definition Detector : Type := MessageKind * (list string -> list JsValue -> bool).

Definition messageTypeDetectors : list Detector :=
  [ (sticker, fun fields _ => some (fun f => Str.includes (normaliseField f) "sticker") fields);
    (reaction, fun fields _ => some (fun f => Str.includes (normaliseField f) "reaction") fields);
    (template, fun fields _ =>
       some (fun f => oneOf ["template"; "components"; "language"] (normaliseField f)) fields);
    (buttons, fun fields _ => some (fun f => Str.includes (normaliseField f) "buttons") fields);
    (list_, fun fields _ =>
       some (fun f => Str.includes (normaliseField f) "sections"
                      || Str.includes (normaliseField f) "buttontext") fields);
    (location, fun fields _ =>
       some (fun f => Str.includes (normaliseField f) "latitude") fields
       && some (fun f => Str.includes (normaliseField f) "longitude") fields);
    (contact, fun fields _ =>
       some (fun f => Str.includes (normaliseField f) "contact") fields
       || some (fun f => Str.includes (normaliseField f) "wuid") fields);
    (poll, fun fields _ => some (fun f => Str.includes (normaliseField f) "selectablecount") fields);
    (status, fun fields _ =>
       some (fun f => (normaliseField f =? "statusjidlist")%string) fields
       || some (fun f => (normaliseField f =? "allcontacts")%string) fields);
    (ptv, fun fields _ => some (fun f => Str.includes (normaliseField f) "video") fields);
    (audio, fun fields _ => some (fun f => Str.includes (normaliseField f) "audio") fields);
    (media, fun fields _ =>
       some (fun f => oneOf ["media"; "mediatype"; "mimetype"] (normaliseField f)) fields);
    (text, fun fields _ => some (fun f => (normaliseField f =? "text")%string) fields) ].

(** [values.filter((value) => typeof value === 'string')] *)
Fixpoint stringValues (vs : list JsValue) : list string :=
  match vs with
  | [] => []
  | JStr s :: vs' => s :: stringValues vs'
  | _ :: vs' => stringValues vs'
  end.

(** [stringValues.some((value) => value.toLowerCase().includes(marker))] *)
Definition mentions (marker : string) (strings : list string) : bool :=
  some (fun value => Str.includes (Str.toLowerCase value) marker) strings.

Definition detectByValues (vals : list JsValue) : option MessageKind :=
  let strings := stringValues vals in
  if mentions "sticker" strings then Some sticker
  else if mentions "reaction" strings then Some reaction
  else if mentions "template" strings then Some template
  else if mentions "button" strings then Some buttons
  else if mentions "section" strings then Some list_
  else if mentions "latitude" strings then Some location
  else if mentions "contact" strings then Some contact
  else if mentions "selectablecount" strings then Some poll
  else if mentions "status" strings then Some status
  else if mentions "video" strings then Some ptv
  else if mentions "audio" strings then Some audio
  else if mentions "media" strings then Some media
  else if mentions "text" strings then Some text
  else None.

(** [messageTypeDetectors.find(({ match }) => match(fieldNames, values))?.type] *)
Definition matchedByField (fields : list string) (vals : list JsValue) : option MessageKind :=
  option_map fst (find (fun d : Detector => snd d fields vals) messageTypeDetectors).

(** [matchedByField ? matchedByField : detectByValues(values)]; a kind is a
    non-empty string, so it is truthy exactly when it is there. *)
Definition matchedByValue (fields : list string) (vals : list JsValue) : option MessageKind :=
  match matchedByField fields vals with
  | Some kind => Some kind
  | None => detectByValues vals
  end.

(** [a || b] where [a] is a kind or [undefined] *)
Definition kindOr (a : option MessageKind) (b : MessageKind) : MessageKind :=
  match a with
  | Some kind => kind
  | None => b
  end.

Definition analyzeMessagePayload (payload : JsValue) : MessageAnalysis :=
  let acc := collectFieldArrays payload "" emptyAccumulator in
  let fields := accFieldNames acc in
  let vals := accValues acc in
  mkMessageAnalysis fields vals
    (kindOr (matchedByValue fields vals) (kindOr (matchedByField fields vals) unknown)).

(** ** Exceptions *)

Inductive JsError : Type := TypeError.

Inductive Completion (A : Type) : Type :=
| Normal (a : A)
| Throw (e : JsError).
Arguments Normal {A} a.
Arguments Throw {A} e.

Definition bind {A B : Type} (c : Completion A) (k : A -> Completion B) : Completion B :=
  match c with
  | Normal a => k a
  | Throw e => Throw e
  end.

Notation "x <- c ;; k" := (bind c (fun x => k))
  (at level 61, c at next level, right associativity).

Definition isNullish (v : JsValue) : bool :=
  match v with
  | JUndefined | JNull => true
  | _ => false
  end.

(** The own property [key] of an object, [undefined] when it has none. *)
Fixpoint lookup (key : string) (entries : list (string * JsValue)) : JsValue :=
  match entries with
  | [] => JUndefined
  | (k, v) :: rest => if (k =? key)%string then v else lookup key rest
  end.

(** What [body.key] evaluates to on a [body] other than [null] and
    [undefined], for a [key] that no built-in prototype defines (the four
    names read below are such): an object answers its own property, a primitive
    or an array has none. *)
Definition ownProp (body : JsValue) (key : string) : JsValue :=
  match body with
  | JObj entries => lookup key entries
  | _ => JUndefined
  end.

(** [body.key]: reading a property off [null] or [undefined] throws. *)
Definition getProp (body : JsValue) (key : string) : Completion JsValue :=
  if isNullish body then Throw TypeError else Normal (ownProp body key).

(** ** Media metadata *)

(** [Partial<{ mediatype; mimetype; fileName; media }>]: [None] is a key the
    record does not have.  The values are whatever was assigned, which for a
    field taken from [body] can be any value. *)
Record MediaMetadata : Type := mkMediaMetadata {
  mediatype : option JsValue;
  mimetype : option JsValue;
  fileName : option JsValue;
  mediaRef : option JsValue  (* the key [media] *)
}.

Definition emptyMetadata : MediaMetadata := mkMediaMetadata None None None None.

(** The imported helpers, with the options the source passes them:
    [isURL(value, { require_tld: false })], [isBase64(value, { allowMime: true })],
    [mimeTypes.lookup] and [mimeTypes.extension]; the last two answer a string
    or [false], here [None]. *)
Record Collaborators : Type := mkCollaborators {
  isURL : string -> bool;
  isBase64 : string -> bool;
  mimeLookup : string -> option string;
  mimeExtension : string -> option string
}.

Definition LONG_STRING_THRESHOLD : Z := 200.
Definition VIDEO_SIZE_THRESHOLD : Z := 4000000.
Definition AUDIO_SIZE_THRESHOLD : Z := 1000000.

(** Truthiness of a string. *)
Definition truthyStr (s : string) : bool := negb (s =? "")%string.

(** [r || undefined] for [r : string | false]; [None] is now [undefined]. *)
Definition orUndefined (r : option string) : option string :=
  match r with
  | Some s => if truthyStr s then Some s else None
  | None => None
  end.

(** A [string | undefined] as a value. *)
Definition ofOptString (r : option string) : JsValue :=
  match r with
  | Some s => JStr s
  | None => JUndefined
  end.

Definition inferMediaTypeFromMime (mimetype : option string) : option string :=
  match orUndefined mimetype with
  | None => None
  | Some m =>
      if Str.startsWith m "image/" then Some "image"
      else if Str.startsWith m "audio/" then Some "audio"
      else if Str.startsWith m "video/" then Some "video"
      else Some "document"
  end.

Section Inference.

Variable lib : Collaborators.

(** [stringValues.find((value) => isURL(value, { require_tld: false }))] *)
Definition urlCandidate (analysis : MessageAnalysis) : option string :=
  find (isURL lib) (stringValues (values analysis)).

(** [stringValues.find((value) => value.length > LONG_STRING_THRESHOLD &&
    isBase64(value, { allowMime: true }))] *)
Definition base64Candidate (analysis : MessageAnalysis) : option string :=
  find (fun value => (LONG_STRING_THRESHOLD <? Str.length value) && isBase64 lib value)
       (stringValues (values analysis)).

(** The body of [if (urlCandidate) { ... return metadata; }]. *)
Definition urlBranch (body : JsValue) (url : string) : Completion MediaMetadata :=
  bodyMedia <- getProp body "media" ;;
  let media_ := jsOr bodyMedia (JStr url) in
  let mime := orUndefined (mimeLookup lib url) in
  bodyMime <- getProp body "mimetype" ;;
  let mimetype_ := jsOr bodyMime (ofOptString mime) in
  bodyType <- getProp body "mediatype" ;;
  let mediatype_ :=
    jsOr (jsOr bodyType (ofOptString (inferMediaTypeFromMime (orUndefined mime))))
         (JStr "document") in
  let extension :=
    match orUndefined (mimeExtension lib (match mime with Some m => m | None => "" end)) with
    | Some e => Some e
    | None => Str.pop (Str.splitDot url)
    end in
  bodyName <- getProp body "fileName" ;;
  let fileName_ :=
    match extension with
    | Some e => if negb (truthy bodyName) && truthyStr e
                then Some (JStr ("media." ++ e)) else None
    | None => None
    end in
  Normal (mkMediaMetadata (Some mediatype_) (Some mimetype_) fileName_ (Some media_)).

(** The body of [if (base64Candidate) { ... }].  Each arm of the source makes
    the same three assignments, [metadata.x = body.x || default], with its own
    defaults. *)
Definition base64Branch (body : JsValue) (candidate : string) : Completion MediaMetadata :=
  bodyMedia <- getProp body "media" ;;
  let media_ := jsOr bodyMedia (JStr candidate) in
  let lowered := Str.toLowerCase candidate in
  bodyType <- getProp body "mediatype" ;;
  bodyMime <- getProp body "mimetype" ;;
  bodyName <- getProp body "fileName" ;;
  let assign (defType defMime defName : string) :=
    mkMediaMetadata (Some (jsOr bodyType (JStr defType)))
                    (Some (jsOr bodyMime (JStr defMime)))
                    (Some (jsOr bodyName (JStr defName)))
                    (Some media_) in
  Normal
    (if Str.includes lowered "audio/ogg" || Str.includes lowered ".ogg"
     then assign "audio" "audio/ogg" "audio.ogg"
     else if Str.includes lowered "image/jpeg" || Str.includes lowered ".jpg"
             || Str.includes lowered "jpeg"
     then assign "image" "image/jpeg" "image.jpg"
     else if VIDEO_SIZE_THRESHOLD <? Str.length candidate
     then assign "video" "video/mp4" "video.mp4"
     else if AUDIO_SIZE_THRESHOLD <? Str.length candidate
     then assign "audio" "audio/mpeg" "audio.mp3"
     else assign "image" "image/png" "image.png").

(** A candidate is a string or [undefined]; [if (candidate)] also fails on
    the empty string. *)
Definition found (candidate : option string) : option string := orUndefined candidate.

Definition inferMediaMetadata (body : JsValue) (analysis : MessageAnalysis)
  : Completion MediaMetadata :=
  match found (urlCandidate analysis) with
  | Some url => urlBranch body url
  | None =>
      match found (base64Candidate analysis) with
      | Some candidate => base64Branch body candidate
      | None => Normal emptyMetadata
      end
  end.

End Inference.

(** ** The classification of a base64 candidate as a rule table

    The five rules of the base64 branch, each a test on the candidate with
    the defaults it gives to [mediatype], [mimetype] and [fileName]; the
    first rule whose test passes is the matching one.  [base64Branch] is
    compared with this table below. *)

Record Defaults : Type := mkDefaults {
  defaultMediatype : string;
  defaultMimetype : string;
  defaultFileName : string
}.

Definition base64Rules : list ((string -> bool) * Defaults) :=
  [ (fun c => Str.includes (Str.toLowerCase c) "audio/ogg"
              || Str.includes (Str.toLowerCase c) ".ogg",
     mkDefaults "audio" "audio/ogg" "audio.ogg");
    (fun c => Str.includes (Str.toLowerCase c) "image/jpeg"
              || Str.includes (Str.toLowerCase c) ".jpg"
              || Str.includes (Str.toLowerCase c) "jpeg",
     mkDefaults "image" "image/jpeg" "image.jpg");
    (fun c => 4000000 <? Str.length c, mkDefaults "video" "video/mp4" "video.mp4");
    (fun c => 1000000 <? Str.length c, mkDefaults "audio" "audio/mpeg" "audio.mp3");
    (fun _ => true, mkDefaults "image" "image/png" "image.png") ].

Definition matchingRule (candidate : string) : option Defaults :=
  option_map snd (find (fun rule => fst rule candidate) base64Rules).

(** The markers of the first two rules. *)
Definition base64Markers : list string :=
  ["audio/ogg"; ".ogg"; "image/jpeg"; ".jpg"; "jpeg"].

(** The markers the content phase tries before "latitude". *)
Definition markersBeforeLatitude : list string :=
  ["sticker"; "reaction"; "template"; "button"; "section"].

(** ** Sample payloads, bodies and collaborators

    Closed examples need helpers that compute.  These stand in for the
    imported ones and are no models of them: the theorems hold for every
    [Collaborators], and the examples only use strings on which the stand-ins
    answer as [class-validator] and [mime-types] do.  For the URL test these
    are: an [http://] or [https://] URL with a dotted host, accepted; a single
    word of 1 to 63 letters, accepted with [require_tld: false] as a host of
    one label; a string with a space in it, refused; a run of more than 63
    letters, refused as a label that is too long. *)

Definition payloadTemplateNote : JsValue :=
  JObj [("template", JNum 1); ("note", JStr "tap the button below")].

Definition payloadLatLong : JsValue :=
  JObj [("latitude", JNum 1); ("longitude", JNum 2)].

Definition payloadLatitudeNote : JsValue :=
  JObj [("note", JStr "Latitude -23.55")].

(** Every character of [s] passes [p]. *)
Fixpoint allChars (p : ascii -> bool) (s : string) : bool :=
  match s with
  | EmptyString => true
  | String c s' => p c && allChars p s'
  end.

Definition base64Char (c : ascii) : bool :=
  let n := N_of_ascii c in
  (((65 <=? n) && (n <=? 90)) || ((97 <=? n) && (n <=? 122)) || ((48 <=? n) && (n <=? 57))
   || (n =? 43) || (n =? 47) || (n =? 61))%N.

Definition letter (c : ascii) : bool :=
  let n := N_of_ascii c in
  (((65 <=? n) && (n <=? 90)) || ((97 <=? n) && (n <=? 122)))%N.

(** A host name of one label: between 1 and 63 letters. *)
Definition bareWord (s : string) : bool :=
  (Str.length s <=? 63) && truthyStr s && allChars letter s.

Definition sampleIsURL (s : string) : bool :=
  Str.startsWith s "http://" || Str.startsWith s "https://" || bareWord s.

Definition sampleIsBase64 (s : string) : bool :=
  truthyStr s && allChars base64Char s && (Str.length s mod 4 =? 0).

Fixpoint assoc (key : string) (table : list (string * string)) : option string :=
  match table with
  | [] => None
  | (k, v) :: rest => if (k =? key)%string then Some v else assoc key rest
  end.

Definition sampleMimeLookup (path : string) : option string :=
  match Str.pop (Str.splitDot path) with
  | Some ext =>
      assoc (Str.toLowerCase ext)
        [("png", "image/png"); ("jpg", "image/jpeg"); ("mp4", "video/mp4");
         ("ogg", "audio/ogg"); ("pdf", "application/pdf")]
  | None => None
  end.

Definition sampleMimeExtension (mime : string) : option string :=
  assoc (Str.toLowerCase mime)
    [("image/png", "png"); ("image/jpeg", "jpeg"); ("video/mp4", "mp4");
     ("audio/ogg", "oga"); ("application/pdf", "pdf")].

Definition sampleLib : Collaborators :=
  mkCollaborators sampleIsURL sampleIsBase64 sampleMimeLookup sampleMimeExtension.

(** An analysis that carries just the values [vals]. *)
Definition analysisOf (vals : list JsValue) : MessageAnalysis :=
  mkMessageAnalysis (map (fun _ => "value") vals) vals unknown.

Definition pictureUrl : string := "https://example.com/pic.png".
Definition dotUrl : string := "https://example.com/report.".

Definition emptyBody : JsValue := JObj [].
Definition bodyWithFileName : JsValue := JObj [("fileName", JStr "photo.png")].
Definition bodyWithMimetype : JsValue := JObj [("mimetype", JStr "x/y")].


(** 240 and 5,000,000 characters of base64 without any marker. *)
Definition shortBase64 : string := Str.replicate "Q" 240.
Definition longBase64 : string := Str.replicate "Q" 5000000.
(** 150 characters of base64: below the floor. *)
Definition tinyBase64 : string := Str.replicate "Q" 150.
(** 241 characters, long enough but no base64: not a multiple of four. *)
Definition oddBase64 : string := Str.replicate "Q" 241.

(** The helpers of [lib] with another base64 test. *)
Definition withBase64 (lib : Collaborators) (test : string -> bool) : Collaborators :=
  mkCollaborators (isURL lib) test (mimeLookup lib) (mimeExtension lib).

(** [s] has no dot. *)
Definition noDot (s : string) : bool := allChars (fun c => negb (Ascii.eqb c ".")) s.

(** The text after the last dot of [s], all of [s] when it has no dot. *)
Fixpoint afterLastDot (s : string) : string :=
  match s with
  | EmptyString => EmptyString
  | String c s' =>
      if noDot s' then (if Ascii.eqb c "." then s' else s) else afterLastDot s'
  end.

(** Whether a branch of [inferMediaMetadata] fires on [analysis]. *)
Definition urlBranchFires (lib : Collaborators) (analysis : MessageAnalysis) : bool :=
  match found (urlCandidate lib analysis) with Some _ => true | None => false end.

Definition base64BranchFires (lib : Collaborators) (analysis : MessageAnalysis) : bool :=
  negb (urlBranchFires lib analysis) &&
  match found (base64Candidate lib analysis) with Some _ => true | None => false end.

(** The extension the URL branch uses: the registry's extension for the
    MIME type looked up for [url] or, when there is none, the text after the
    last dot of [url]. *)
Definition urlExtension (lib : Collaborators) (url : string) : string :=
  let mime := match orUndefined (mimeLookup lib url) with Some m => m | None => "" end in
  match orUndefined (mimeExtension lib mime) with
  | Some e => e
  | None => afterLastDot url
  end.

(** * Properties *)

(** ** Induction on values *)

Section ValueInduction.

Variable P : JsValue -> Prop.
Hypothesis P_undefined : P JUndefined.
Hypothesis P_null : P JNull.
Hypothesis P_bool : forall b, P (JBool b).
Hypothesis P_num : forall n, P (JNum n).
Hypothesis P_nan : P JNaN.
Hypothesis P_str : forall s, P (JStr s).
Hypothesis P_arr : forall items, Forall P items -> P (JArr items).
Hypothesis P_obj : forall entries, Forall (fun e => P (snd e)) entries -> P (JObj entries).

Fixpoint JsValue_ind (v : JsValue) : P v :=
  match v with
  | JUndefined => P_undefined
  | JNull => P_null
  | JBool b => P_bool b
  | JNum n => P_num n
  | JNaN => P_nan
  | JStr s => P_str s
  | JArr items =>
      P_arr items
        ((fix all (xs : list JsValue) : Forall P xs :=
            match xs with
            | [] => Forall_nil P
            | x :: xs' => Forall_cons x (JsValue_ind x) (all xs')
            end) items)
  | JObj entries =>
      P_obj entries
        ((fix all (es : list (string * JsValue)) : Forall (fun e => P (snd e)) es :=
            match es with
            | [] => Forall_nil _
            | e :: es' => Forall_cons e (JsValue_ind (snd e)) (all es')
            end) entries)
  end.

End ValueInduction.

(** ** The two sequences grow together *)

Definition parallel (acc : Accumulator) : Prop :=
  List.length (accFieldNames acc) = List.length (accValues acc).

(** A function on accumulators keeps the two sequences parallel. *)
Definition keepsParallel (f : Accumulator -> Accumulator) : Prop :=
  forall acc, parallel acc -> parallel (f acc).

(** What the induction carries for a value: the flattener keeps the sequences
    parallel on it and, when it is an array, on each of its elements (the
    callback walks the elements of an array entry itself). *)
Definition flattensParallel (value : JsValue) : Prop :=
  (forall p, keepsParallel (collectFieldArrays value p)) /\
  (forall items, value = JArr items ->
     Forall (fun item => forall p, keepsParallel (collectFieldArrays item p)) items).

(** ** What the flattener records *)

(** [value && typeof value === 'object']: an object or an array. *)
Definition isContainer (v : JsValue) : bool := truthy v && typeofObject v.

(** [acc] with the two sequences of [more] appended to its own. *)
Definition extend (acc more : Accumulator) : Accumulator :=
  mkAccumulator (accFieldNames acc ++ accFieldNames more)
                (accValues acc ++ accValues more).

(** A function on accumulators only appends, and what it appends does not
    depend on what is there already. *)
Definition appendsOnly (f : Accumulator -> Accumulator) : Prop :=
  forall acc, f acc = extend acc (f emptyAccumulator).

(** The values below [v], parents before children, siblings in order. *)
Fixpoint below (v : JsValue) : list JsValue :=
  match v with
  | JArr items => flat_map (fun item => item :: below item) items
  | JObj entries => flat_map (fun e => snd e :: below (snd e)) entries
  | _ => []
  end.

(** [w] is an element of the array [v] or the value of an entry of the
    object [v]. *)
Inductive child : JsValue -> JsValue -> Prop :=
| child_item items item : In item items -> child (JArr items) item
| child_entry entries key value : In (key, value) entries -> child (JObj entries) value.

(** [w] is reached from [v] through one or more [child] steps. *)
Inductive descendant : JsValue -> JsValue -> Prop :=
| descendant_child v w : child v w -> descendant v w
| descendant_step v u w : child v u -> descendant u w -> descendant v w.

(** [`${path}[0]`], [`${path}[1]`], ... for [n] elements from [index] on. *)
Fixpoint indexPaths (path : string) (index n : nat) : list string :=
  match n with
  | O => []
  | S n' => indexPath path index :: indexPaths path (S index) n'
  end.

(** The keys [Object.entries] gives the elements of an array from [index] on. *)
Fixpoint indexKeys (index n : nat) : list string :=
  match n with
  | O => []
  | S n' => Str.ofIndex index :: indexKeys (S index) n'
  end.

(** The paths of an entry whose value is a scalar, or an array that is
    recorded with its elements. *)
Definition shallowPaths (e : string * JsValue) : list string :=
  fst e :: match snd e with
           | JArr items => indexPaths (fst e) 0 (List.length items)
           | _ => []
           end.

(** A scalar, or an array of scalars. *)
Definition shallow (v : JsValue) : bool :=
  match v with
  | JArr items => forallb (fun item => negb (isContainer item)) items
  | _ => negb (isContainer v)
  end.

(** What [recur] adds to the values is what lies below the value it is given. *)
Definition addsBelow (recur : JsValue -> string -> Accumulator -> Accumulator)
    (value : JsValue) : Prop :=
  forall p acc, accValues (recur value p acc) = (accValues acc ++ below value)%list.

Definition payloadShallow : JsValue :=
  JObj [("to", JStr "5511"); ("tags", JArr [JStr "a"; JNum 2]); ("ok", JBool true)].

(** [s] has neither a dot nor an opening bracket: it is not a path made by
    [joinPath] under a prefix, nor by [indexPath]. *)
Definition plain (s : string) : bool :=
  allChars (fun c => negb (Ascii.eqb c ".") && negb (Ascii.eqb c "[")) s.

(** Every field name of the accumulator satisfies [good]. *)
Definition namesAll (good : string -> Prop) (acc : Accumulator) : Prop :=
  Forall good (accFieldNames acc).

(** [recur] on [value], under a prefix that is not empty, keeps the names good. *)
Definition keepsNames (good : string -> Prop)
    (recur : JsValue -> string -> Accumulator -> Accumulator) (value : JsValue) : Prop :=
  forall p acc, p <> "" -> namesAll good acc -> namesAll good (recur value p acc).

(** The rules of the field-name phase that compare the whole path with a
    fixed name, with their names. *)
Definition exactNameRules : list (MessageKind * list string) :=
  [ (template, ["template"; "components"; "language"]);
    (status, ["statusjidlist"; "allcontacts"]);
    (media, ["media"; "mediatype"; "mimetype"]);
    (text, ["text"]) ].

(** The four kinds of attachment. *)
Definition mediaTypes : list JsValue :=
  [JStr "image"; JStr "audio"; JStr "video"; JStr "document"].

(** [body] supplies none of [mediatype], [mimetype] and [fileName]. *)
Definition suppliesNoHint (body : JsValue) : Prop :=
  isNullish body = false /\
  truthy (ownProp body "mediatype") = false /\
  truthy (ownProp body "mimetype") = false /\
  truthy (ownProp body "fileName") = false.

(** The record has the three inferred fields [mediatype], [mimetype] and
    [fileName] set to these strings. *)
Definition inferredAs (record : MediaMetadata) (kind mime name : string) : Prop :=
  mediatype record = Some (JStr kind) /\
  mimetype record = Some (JStr mime) /\
  fileName record = Some (JStr name).

(** [lowered] has the marker of the first rule of the base64 branch, and of
    the second. *)
Definition oggMarked (candidate : string) : bool :=
  Str.includes (Str.toLowerCase candidate) "audio/ogg"
  || Str.includes (Str.toLowerCase candidate) ".ogg".

Definition jpegMarked (candidate : string) : bool :=
  Str.includes (Str.toLowerCase candidate) "image/jpeg"
  || Str.includes (Str.toLowerCase candidate) ".jpg"
  || Str.includes (Str.toLowerCase candidate) "jpeg".

(** [n] characters of base64 without any marker. *)
Definition plainBase64 (n : Z) : string := Str.replicate "Q" n.

(** 5,000,000 characters of base64 that start with "jpeg". *)
Definition jpegBase64 : string :=
  String "j" (String "p" (String "e" (String "g" (plainBase64 4999996)))).

Lemma parallel_empty : parallel emptyAccumulator.
Proof. reflexivity. Qed.

Lemma parallel_push path value acc : parallel acc -> parallel (push path value acc).
Proof.
  unfold parallel, push; cbn [accFieldNames accValues]; intros H.
  now rewrite !length_app, H.
Qed.

Section CallbacksParallel.

Variable recur : JsValue -> string -> Accumulator -> Accumulator.

Lemma forEachItem_parallel items :
  Forall (fun item => forall p, keepsParallel (recur item p)) items ->
  forall path index, keepsParallel (forEachItem recur path items index).
Proof.
  induction 1 as [|item rest Hitem _ IH]; intros path index acc Hacc; cbn [forEachItem].
  - exact Hacc.
  - apply IH.
    destruct (truthy item && typeofObject item).
    + apply Hitem, parallel_push, Hacc.
    + apply parallel_push, Hacc.
Qed.

Lemma onEntry_parallel prefix key value :
  (forall p, keepsParallel (recur value p)) ->
  (forall items, value = JArr items ->
     Forall (fun item => forall p, keepsParallel (recur item p)) items) ->
  keepsParallel (onEntry recur prefix key value).
Proof.
  intros Hvalue Hitems acc Hacc; unfold onEntry.
  pose proof (parallel_push (joinPath prefix key) value acc Hacc) as Hpush.
  destruct value; cbn [truthy typeofObject andb]; trivial.
  - destruct b; exact Hpush.
  - destruct (negb (n =? 0)); exact Hpush.
  - destruct (negb (s =? "")%string); exact Hpush.
  - apply forEachItem_parallel; [apply (Hitems items eq_refl) | exact Hpush].
  - apply Hvalue, Hpush.
Qed.

End CallbacksParallel.

Lemma flattensParallel_all value : flattensParallel value.
Proof.
  induction value as [| | b | n | | s | items IH | entries IH] using JsValue_ind;
    (split; [intros prefix acc Hacc; cbn [collectFieldArrays]; trivial
            | intros items' Heq; try discriminate Heq]).
  - (* an array at the top: its indices are the keys *)
    generalize 0%nat; revert acc Hacc.
    induction IH as [|value rest [Hvalue Hitems] _ IHrest]; intros acc Hacc index;
      cbn [forEachIndexed]; trivial.
    apply IHrest, onEntry_parallel; trivial.
  - injection Heq as <-.
    eapply Forall_impl; [|exact IH]. now intros item [Hitem _].
  - revert acc Hacc.
    induction IH as [|[key value] rest [Hvalue Hitems] _ IHrest]; intros acc Hacc;
      cbn [forEachEntry]; trivial.
    apply IHrest, onEntry_parallel; trivial.
Qed.

Lemma collectFieldArrays_parallel payload prefix acc :
  parallel acc -> parallel (collectFieldArrays payload prefix acc).
Proof. apply flattensParallel_all. Qed.

(** C5. For every payload the analysis has as many field names as values:
    the flattener pushes to both sequences together. *)
Theorem analyze_fieldNames_values_same_length :
  forall payload : JsValue,
    List.length (fieldNames (analyzeMessagePayload payload)) =
    List.length (values (analyzeMessagePayload payload)).
Proof.
  intros payload. unfold analyzeMessagePayload; cbn [fieldNames values].
  apply (collectFieldArrays_parallel payload "" emptyAccumulator parallel_empty).
Qed.

(** ** Resolution of the two phases *)

Lemma analyze_type payload :
  type (analyzeMessagePayload payload) =
  kindOr (matchedByValue (fieldNames (analyzeMessagePayload payload))
                         (values (analyzeMessagePayload payload)))
         (kindOr (matchedByField (fieldNames (analyzeMessagePayload payload))
                                 (values (analyzeMessagePayload payload)))
                 unknown).
Proof. reflexivity. Qed.

(** The claim of C1 fails on the example it gives: the content phase would
    answer [buttons] for [{template: 1, note: "tap the button below"}], yet
    the analysis says [template], the field-name match. *)
Lemma content_match_does_not_override_field_match :
  detectByValues (values (analyzeMessagePayload payloadTemplateNote)) = Some buttons /\
  matchedByField (fieldNames (analyzeMessagePayload payloadTemplateNote))
                 (values (analyzeMessagePayload payloadTemplateNote)) = Some template /\
  type (analyzeMessagePayload payloadTemplateNote) = template /\
  type (analyzeMessagePayload payloadTemplateNote) <> buttons.
Proof. repeat split; try reflexivity. vm_compute. discriminate. Qed.

(** C1, amended. The content phase is consulted only when no field-name
    rule matched ([matchedByValue] is the field-name match whenever there is
    one), and the kind is the field-name match when one exists, else the
    content match, else [unknown]; the example with [template] and a note
    about a button is a [template]. *)
Theorem analyze_field_match_first :
  forall payload : JsValue,
    let fields := fieldNames (analyzeMessagePayload payload) in
    let vals := values (analyzeMessagePayload payload) in
    (forall kind, matchedByField fields vals = Some kind ->
       matchedByValue fields vals = Some kind) /\
    (matchedByField fields vals = None ->
       matchedByValue fields vals = detectByValues vals) /\
    type (analyzeMessagePayload payload) =
      match matchedByField fields vals with
      | Some kind => kind
      | None => match detectByValues vals with
                | Some kind => kind
                | None => unknown
                end
      end /\
    type (analyzeMessagePayload payloadTemplateNote) = template.
Proof.
  intros payload fields vals. rewrite analyze_type. fold fields vals.
  unfold matchedByValue.
  destruct (matchedByField fields vals) as [kind|]; cbn [kindOr];
    (split; [|split; [|split]]); trivial; discriminate.
Qed.

Lemma analyze_field_match_first_witness :
  matchedByValue (fieldNames (analyzeMessagePayload payloadTemplateNote))
                 (values (analyzeMessagePayload payloadTemplateNote)) = Some template /\
  matchedByValue (fieldNames (analyzeMessagePayload payloadLatitudeNote))
                 (values (analyzeMessagePayload payloadLatitudeNote)) =
  detectByValues (values (analyzeMessagePayload payloadLatitudeNote)).
Proof.
  split.
  - apply (proj1 (analyze_field_match_first payloadTemplateNote)). reflexivity.
  - apply (proj1 (proj2 (analyze_field_match_first payloadLatitudeNote))). reflexivity.
Defined.

(** ** Field-name rules *)

Lemma some_exists {A : Type} (p : A -> bool) (xs : list A) :
  some p xs = true <-> exists x, In x xs /\ p x = true.
Proof. apply existsb_exists. Qed.

Lemma some_false {A : Type} (p : A -> bool) (xs : list A) :
  (forall x, In x xs -> p x = false) -> some p xs = false.
Proof.
  intros H. destruct (some p xs) eqn:E; trivial.
  apply some_exists in E as (x & Hin & Hp). rewrite (H x Hin) in Hp. discriminate.
Qed.

(** The field-name phase, rule by rule. *)
Ltac field_rules :=
  cbv beta iota delta [matchedByField messageTypeDetectors find option_map fst snd].

(** Every path that [matchedByField] answers [location] for has the two
    markers. *)
Lemma matchedByField_location fields vals :
  matchedByField fields vals = Some location ->
  some (fun f => Str.includes (normaliseField f) "latitude") fields = true /\
  some (fun f => Str.includes (normaliseField f) "longitude") fields = true.
Proof.
  field_rules.
  repeat match goal with
         | |- context [if ?c then _ else _] =>
             let E := fresh "E" in destruct c eqn:E; try discriminate
         end.
  intros _. now apply andb_true_iff in E4.
Qed.

(** On a value that is no object and no array the callback only pushes. *)
Lemma onEntry_scalar recur prefix key value acc :
  isContainer value = false ->
  onEntry recur prefix key value acc = push (joinPath prefix key) value acc.
Proof.
  unfold onEntry, isContainer.
  destruct value; try discriminate; intros H; cbn [truthy typeofObject] in *;
    try reflexivity; now rewrite H.
Qed.

(** Field names that are just "latitude" and "longitude", both there, make
    the field-name phase answer [location]. *)
Lemma matchedByField_latitude_longitude fields vals :
  (forall f, In f fields -> f = "latitude" \/ f = "longitude") ->
  In "latitude" fields -> In "longitude" fields ->
  matchedByField fields vals = Some location.
Proof.
  intros Hall Hlat Hlong. field_rules.
  assert (Hno : forall p : string -> bool,
            p "latitude" = false -> p "longitude" = false -> some p fields = false).
  { intros p Hp Hq. apply some_false. intros f Hf.
    now destruct (Hall f Hf) as [->| ->]. }
  rewrite (Hno (fun f => Str.includes (normaliseField f) "sticker")) by reflexivity.
  rewrite (Hno (fun f => Str.includes (normaliseField f) "reaction")) by reflexivity.
  rewrite (Hno (fun f => oneOf ["template"; "components"; "language"] (normaliseField f)))
    by reflexivity.
  rewrite (Hno (fun f => Str.includes (normaliseField f) "buttons")) by reflexivity.
  rewrite (Hno (fun f => Str.includes (normaliseField f) "sections"
                         || Str.includes (normaliseField f) "buttontext")) by reflexivity.
  assert (Hl : some (fun f => Str.includes (normaliseField f) "latitude") fields = true)
    by (apply some_exists; exists "latitude"; now split).
  assert (Hg : some (fun f => Str.includes (normaliseField f) "longitude") fields = true)
    by (apply some_exists; exists "longitude"; now split).
  now rewrite Hl, Hg.
Qed.

(** C8. The field-name phase answers [location] only when some path contains
    "latitude" and some path contains "longitude", both read in lower case.
    A payload whose field names are just [latitude] and [longitude] is a
    [location]; so is every object with exactly these two keys, in either
    order, whatever scalars they hold (a string that a content rule would
    match makes no difference). *)
Theorem location_needs_latitude_and_longitude :
  (forall fields vals,
     matchedByField fields vals = Some location ->
     (exists f, In f fields /\ Str.includes (Str.toLowerCase f) "latitude" = true) /\
     (exists g, In g fields /\ Str.includes (Str.toLowerCase g) "longitude" = true)) /\
  (forall payload,
     (forall f, In f (fieldNames (analyzeMessagePayload payload)) ->
                f = "latitude" \/ f = "longitude") ->
     In "latitude" (fieldNames (analyzeMessagePayload payload)) ->
     In "longitude" (fieldNames (analyzeMessagePayload payload)) ->
     type (analyzeMessagePayload payload) = location) /\
  (forall v w,
     isContainer v = false -> isContainer w = false ->
     fieldNames (analyzeMessagePayload (JObj [("latitude", v); ("longitude", w)])) =
       ["latitude"; "longitude"] /\
     type (analyzeMessagePayload (JObj [("latitude", v); ("longitude", w)])) = location /\
     type (analyzeMessagePayload (JObj [("longitude", w); ("latitude", v)])) = location) /\
  type (analyzeMessagePayload payloadLatLong) = location.
Proof.
  assert (Hnames : forall payload,
     (forall f, In f (fieldNames (analyzeMessagePayload payload)) ->
                f = "latitude" \/ f = "longitude") ->
     In "latitude" (fieldNames (analyzeMessagePayload payload)) ->
     In "longitude" (fieldNames (analyzeMessagePayload payload)) ->
     type (analyzeMessagePayload payload) = location).
  { intros payload Hall Hlat Hlong. rewrite analyze_type. unfold matchedByValue.
    now rewrite (matchedByField_latitude_longitude _ _ Hall Hlat Hlong). }
  assert (Hpair : forall k1 v k2 w,
     isContainer v = false -> isContainer w = false ->
     fieldNames (analyzeMessagePayload (JObj [(k1, v); (k2, w)])) = [k1; k2]).
  { intros k1 v k2 w Hv Hw. unfold analyzeMessagePayload.
    cbn [fieldNames collectFieldArrays forEachEntry].
    now rewrite !onEntry_scalar by assumption. }
  split; [|split; [exact Hnames | split; [|reflexivity]]].
  - intros fields vals H. apply matchedByField_location in H as [Hlat Hlong].
    split; now apply some_exists.
  - intros v w Hv Hw. split; [now apply Hpair|].
    split; apply Hnames; rewrite Hpair by assumption; cbn [In]; try tauto;
      intros f [<-|[<-|[]]]; tauto.
Qed.

Lemma location_needs_latitude_and_longitude_witness :
  ((exists f, In f ["Latitude"; "geo.longitude"] /\
              Str.includes (Str.toLowerCase f) "latitude" = true) /\
   (exists g, In g ["Latitude"; "geo.longitude"] /\
              Str.includes (Str.toLowerCase g) "longitude" = true)) /\
  type (analyzeMessagePayload
          (JObj [("latitude", JStr "sticker"); ("longitude", JNum (-46))])) = location.
Proof.
  split.
  - apply (proj1 location_needs_latitude_and_longitude ["Latitude"; "geo.longitude"] []).
    reflexivity.
  - apply (proj1 (proj2 (proj2 location_needs_latitude_and_longitude))
             (JStr "sticker") (JNum (-46))); reflexivity.
Defined.

(** ** Content rules *)

Lemma stringValues_In s vals : In s (stringValues vals) <-> In (JStr s) vals.
Proof.
  induction vals as [|v vals IH]; cbn [stringValues]; [tauto|].
  destruct v; cbn [In]; rewrite IH;
    (split; [intros H; try (right; exact H) | intros [H|H]; try discriminate H; trivial]).
  - destruct H as [->|H]; auto.
  - injection H as ->. now left.
  - now right.
Qed.

Lemma mentions_false marker vals :
  (forall s, In (JStr s) vals -> Str.includes (Str.toLowerCase s) marker = false) ->
  mentions marker (stringValues vals) = false.
Proof.
  intros H. apply some_false. intros s Hs. now apply H, stringValues_In.
Qed.

Lemma mentions_true marker vals s :
  In (JStr s) vals -> Str.includes (Str.toLowerCase s) marker = true ->
  mentions marker (stringValues vals) = true.
Proof.
  intros Hin Hs. apply some_exists. exists s. split; trivial. now apply stringValues_In.
Qed.

(** C9. When no field-name rule matched and no string value contains one of
    "sticker", "reaction", "template", "button", "section", a string value
    that contains "latitude" (in any case) makes the content phase, and so
    the analysis, answer [location]; no value has to contain "longitude". *)
Theorem latitude_value_alone_gives_location :
  forall payload : JsValue,
    matchedByField (fieldNames (analyzeMessagePayload payload))
                   (values (analyzeMessagePayload payload)) = None ->
    (forall s marker,
       In (JStr s) (values (analyzeMessagePayload payload)) ->
       In marker markersBeforeLatitude ->
       Str.includes (Str.toLowerCase s) marker = false) ->
    (exists s, In (JStr s) (values (analyzeMessagePayload payload)) /\
               Str.includes (Str.toLowerCase s) "latitude" = true) ->
    detectByValues (values (analyzeMessagePayload payload)) = Some location /\
    type (analyzeMessagePayload payload) = location.
Proof.
  intros payload Hfield Hnone (s & Hin & Hlat).
  assert (Hvalue : detectByValues (values (analyzeMessagePayload payload)) = Some location).
  { unfold detectByValues.
    rewrite !mentions_false by
      (intros s' Hs'; apply (Hnone s' _ Hs'); unfold markersBeforeLatitude; cbn [In]; tauto).
    now rewrite (mentions_true "latitude" _ s Hin Hlat). }
  split; [exact Hvalue|].
  rewrite analyze_type. unfold matchedByValue. rewrite Hfield, Hvalue. reflexivity.
Qed.

Lemma latitude_value_alone_gives_location_witness :
  (exists s, In (JStr s) (values (analyzeMessagePayload payloadLatitudeNote)) /\
             Str.includes (Str.toLowerCase s) "longitude" = false) /\
  detectByValues (values (analyzeMessagePayload payloadLatitudeNote)) = Some location /\
  type (analyzeMessagePayload payloadLatitudeNote) = location.
Proof.
  split.
  - exists "Latitude -23.55". split; [left; reflexivity | reflexivity].
  - apply (latitude_value_alone_gives_location payloadLatitudeNote).
    + reflexivity.
    + intros s marker [Hs|[]] Hmarker. injection Hs as <-.
      unfold markersBeforeLatitude in Hmarker; cbn [In] in Hmarker.
      repeat (destruct Hmarker as [<-|Hmarker]; [reflexivity|]). contradiction.
    + exists "Latitude -23.55". split; [left; reflexivity | reflexivity].
Defined.

(** * Properties of the inference *)

(** ** Strings *)

Lemma lengthFrom_shift s : forall n, Str.lengthFrom s n = n + Str.lengthFrom s 0.
Proof.
  induction s as [|c s IH]; intros n; cbn [Str.lengthFrom]; [lia|].
  rewrite (IH (Z.succ n)), (IH (Z.succ 0)). lia.
Qed.

Lemma length_empty : Str.length "" = 0.
Proof. reflexivity. Qed.

Lemma length_String c s : Str.length (String c s) = 1 + Str.length s.
Proof. unfold Str.length; cbn [Str.lengthFrom]. now rewrite lengthFrom_shift. Qed.

Lemma length_nonneg s : 0 <= Str.length s.
Proof. induction s as [|c s IH]; [rewrite length_empty | rewrite length_String]; lia. Qed.

Lemma truthyStr_long s : 0 < Str.length s -> truthyStr s = true.
Proof. destruct s; [rewrite length_empty; lia | reflexivity]. Qed.

Lemma bareWord_long s : 63 < Str.length s -> bareWord s = false.
Proof. intros H. unfold bareWord. now rewrite (proj2 (Z.leb_gt _ _) H). Qed.

Lemma truthyStr_false s : truthyStr s = false -> s = "".
Proof. destruct s; [reflexivity | discriminate]. Qed.

(** What holds of the empty string and survives a further copy of [c] holds
    of every [replicate c n]. *)
Lemma replicate_invariant (P : string -> Prop) c :
  P "" -> (forall s, P s -> P (String c s)) -> forall n, P (Str.replicate c n).
Proof.
  intros Hempty Hstep [|p|p]; unfold Str.replicate; cbn [Z.iter]; trivial.
  now apply Pos.iter_invariant.
Qed.

Lemma length_replicate c n : 0 <= n -> Str.length (Str.replicate c n) = n.
Proof.
  intros Hn. destruct n as [|p|p]; [reflexivity| |lia].
  unfold Str.replicate; cbn [Z.iter].
  induction p as [|p IH] using Pos.peano_ind.
  - reflexivity.
  - rewrite Pos.iter_succ, length_String, IH; lia.
Qed.

Lemma allChars_replicate p c n : p c = true -> allChars p (Str.replicate c n) = true.
Proof.
  intros Hc. apply (replicate_invariant (fun s => allChars p s = true) c); [reflexivity|].
  intros s Hs; cbn [allChars]. now rewrite Hc, Hs.
Qed.

(** A string made of one character only does not contain, even in lower
    case, a marker that starts with another one. *)
Lemma includes_other_char c s first marker :
  allChars (Ascii.eqb c) s = true ->
  first <> Str.lowerChar c ->
  Str.includes (Str.toLowerCase s) (String first marker) = false.
Proof.
  intros Hs Hne. induction s as [|c' s IH]; [reflexivity|].
  cbn [allChars] in Hs. apply andb_true_iff in Hs as [Hc Hs].
  apply Ascii.eqb_eq in Hc as <-.
  cbn [Str.toLowerCase Str.includes]. rewrite (IH Hs), orb_false_r.
  unfold Str.startsWith; cbn [prefix].
  now destruct (ascii_dec first (Str.lowerChar c)).
Qed.

Lemma includes_replicate c n first marker :
  first <> Str.lowerChar c ->
  Str.includes (Str.toLowerCase (Str.replicate c n)) (String first marker) = false.
Proof.
  intros Hne. apply (includes_other_char c); trivial.
  apply allChars_replicate, Ascii.eqb_refl.
Qed.

Lemma startsWith_replicate c n first marker :
  first <> c -> Str.startsWith (Str.replicate c n) (String first marker) = false.
Proof.
  intros Hne. apply (replicate_invariant
    (fun s => Str.startsWith s (String first marker) = false) c); [reflexivity|].
  intros s _. unfold Str.startsWith; cbn [prefix]. now destruct (ascii_dec first c).
Qed.

(** ** [split('.').pop()] *)

Lemma pop_singleton x : Str.pop [x] = Some x.
Proof. reflexivity. Qed.

Lemma pop_cons x y rest : Str.pop (x :: y :: rest) = Str.pop (y :: rest).
Proof.
  unfold Str.pop. cbn [rev]. destruct (rev rest) as [|z zs]; reflexivity.
Qed.

Lemma splitDot_noDot s : noDot s = true -> Str.splitDot s = [s].
Proof.
  unfold noDot. induction s as [|c s IH]; [reflexivity|].
  cbn [allChars Str.splitDot]. intros H. apply andb_true_iff in H as [Hc Hs].
  apply negb_true_iff in Hc. now rewrite Hc, (IH Hs).
Qed.

Lemma splitDot_dotted s :
  noDot s = false -> exists piece next rest, Str.splitDot s = piece :: next :: rest.
Proof.
  unfold noDot. induction s as [|c s IH]; [discriminate|].
  cbn [allChars Str.splitDot]. intros H.
  destruct (Ascii.eqb c ".") eqn:Hc.
  - destruct (Str.splitDot s) as [|piece rest] eqn:Hs.
    + destruct s; cbn [Str.splitDot] in Hs; [discriminate|].
      destruct (Ascii.eqb a "."); [discriminate|].
      destruct (Str.splitDot s); discriminate.
    + now exists "", piece, rest.
  - cbn [negb andb] in H. destruct (IH H) as (piece & next & rest & ->).
    now exists (String c piece), next, rest.
Qed.

Lemma afterLastDot_noDot s : noDot s = true -> afterLastDot s = s.
Proof.
  destruct s as [|c s]; [reflexivity|]. unfold noDot; cbn [allChars afterLastDot].
  intros H. apply andb_true_iff in H as [Hc Hs]. apply negb_true_iff in Hc.
  fold (noDot s). unfold noDot at 1. now rewrite Hs, Hc.
Qed.

(** [s.split('.').pop()] is the text after the last dot of [s]. *)
Lemma pop_splitDot s : Str.pop (Str.splitDot s) = Some (afterLastDot s).
Proof.
  induction s as [|c s IH]; [reflexivity|].
  cbn [Str.splitDot afterLastDot].
  destruct (noDot s) eqn:Hs.
  - rewrite (splitDot_noDot s Hs). now destruct (Ascii.eqb c ".").
  - destruct (splitDot_dotted s Hs) as (piece & next & rest & Hsplit).
    rewrite Hsplit in *. destruct (Ascii.eqb c "."); now rewrite pop_cons, <- IH, ?pop_cons.
Qed.

(** [afterLastDot s] has no dot, and it is [s] itself or what follows a
    dot of [s]. *)
Lemma afterLastDot_spec s :
  noDot (afterLastDot s) = true /\
  (afterLastDot s = s \/ exists before, s = before ++ "." ++ afterLastDot s).
Proof.
  induction s as [|c s [IHno IHeq]]; [split; [reflexivity | now left]|].
  cbn [afterLastDot]. destruct (noDot s) eqn:Hs.
  - destruct (Ascii.eqb c ".") eqn:Hc.
    + split; [exact Hs|]. right. exists "". apply Ascii.eqb_eq in Hc as ->. reflexivity.
    + split; [|now left]. unfold noDot; cbn [allChars]. now rewrite Hc.
  - split; [exact IHno|]. right. destruct IHeq as [Heq|[before Heq]].
    + rewrite Heq, Hs in IHno. discriminate.
    + exists (String c before). cbn [append] in Heq |- *. now rewrite <- Heq.
Qed.

(** ** Selection of the candidates *)

(** [xs.find(p)] answers the first element that passes [p]. *)
Lemma find_first {A : Type} (p : A -> bool) (xs : list A) (x : A) :
  find p xs = Some x ->
  exists before after,
    xs = (before ++ x :: after)%list /\ p x = true /\ forall y, In y before -> p y = false.
Proof.
  induction xs as [|a xs IH]; [discriminate|]. cbn [find].
  destruct (p a) eqn:Ha.
  - intros [= <-]. exists [], xs. repeat split; trivial. intros y [].
  - intros H. destruct (IH H) as (before & after & -> & Hx & Hbefore).
    exists (a :: before), after. repeat split; trivial.
    intros y [<-|Hy]; auto.
Qed.

Lemma found_Some c s : found c = Some s -> c = Some s /\ truthyStr s = true.
Proof.
  unfold found, orUndefined. destruct c as [s'|]; [|discriminate].
  destruct (truthyStr s') eqn:E; [|discriminate]. now intros [= <-].
Qed.

Lemma urlCandidate_none lib analysis :
  (forall s, In (JStr s) (values analysis) -> isURL lib s = false) ->
  urlCandidate lib analysis = None.
Proof.
  intros H. unfold urlCandidate.
  destruct (find _ _) as [s|] eqn:E; trivial.
  apply find_some in E as [Hin Hs]. apply stringValues_In in Hin.
  rewrite (H s Hin) in Hs. discriminate.
Qed.

Lemma urlCandidate_some lib analysis :
  (exists s, In (JStr s) (values analysis) /\ isURL lib s = true) ->
  exists url, urlCandidate lib analysis = Some url /\ isURL lib url = true.
Proof.
  intros (s & Hin & Hs). unfold urlCandidate.
  destruct (find _ _) as [url|] eqn:E.
  - exists url. split; trivial. now apply find_some in E.
  - apply stringValues_In in Hin. rewrite (find_none _ _ E s Hin) in Hs. discriminate.
Qed.

Lemma base64Candidate_long lib analysis c :
  base64Candidate lib analysis = Some c ->
  LONG_STRING_THRESHOLD < Str.length c /\ isBase64 lib c = true.
Proof.
  unfold base64Candidate. intros H. apply find_some in H as [_ H].
  apply andb_true_iff in H as [Hlen Hb]. now apply Z.ltb_lt in Hlen.
Qed.

Lemma found_base64Candidate lib analysis c :
  base64Candidate lib analysis = Some c -> found (base64Candidate lib analysis) = Some c.
Proof.
  intros H. rewrite H. unfold found, orUndefined.
  apply base64Candidate_long in H as [Hlen _]. unfold LONG_STRING_THRESHOLD in Hlen.
  rewrite truthyStr_long by lia. reflexivity.
Qed.

(** ** The branches on a body whose properties can be read *)

Lemma getProp_readable body key :
  isNullish body = false -> getProp body key = Normal (ownProp body key).
Proof. unfold getProp. now intros ->. Qed.

Lemma getProp_nullish body key : isNullish body = true -> getProp body key = Throw TypeError.
Proof. unfold getProp. now intros ->. Qed.

Lemma getProp_Normal body key v :
  getProp body key = Normal v -> isNullish body = false /\ v = ownProp body key.
Proof. unfold getProp. destruct (isNullish body); [discriminate|]. now intros [= <-]. Qed.

Lemma urlBranch_readable lib body url :
  isNullish body = false ->
  urlBranch lib body url =
  Normal (mkMediaMetadata
    (Some (jsOr (jsOr (ownProp body "mediatype")
                      (ofOptString (inferMediaTypeFromMime
                                      (orUndefined (orUndefined (mimeLookup lib url))))))
                (JStr "document")))
    (Some (jsOr (ownProp body "mimetype") (ofOptString (orUndefined (mimeLookup lib url)))))
    (if negb (truthy (ownProp body "fileName")) && truthyStr (urlExtension lib url)
     then Some (JStr ("media." ++ urlExtension lib url)) else None)
    (Some (jsOr (ownProp body "media") (JStr url)))).
Proof.
  intros Hbody. unfold urlBranch, urlExtension.
  rewrite !(getProp_readable body _ Hbody). cbn [bind].
  destruct (orUndefined (mimeExtension lib _)) as [e|]; [reflexivity|].
  now rewrite pop_splitDot.
Qed.

Lemma urlBranch_nullish lib body url :
  isNullish body = true -> urlBranch lib body url = Throw TypeError.
Proof. intros Hbody. unfold urlBranch. now rewrite (getProp_nullish body _ Hbody). Qed.

Lemma base64Branch_nullish body candidate :
  isNullish body = true -> base64Branch body candidate = Throw TypeError.
Proof. intros Hbody. unfold base64Branch. now rewrite (getProp_nullish body _ Hbody). Qed.

(** The arm of [base64Branch] that runs is the first rule of [base64Rules]
    that matches, and there always is one. *)
Lemma base64Branch_readable body candidate :
  isNullish body = false ->
  exists rule,
    matchingRule candidate = Some rule /\
    base64Branch body candidate =
    Normal (mkMediaMetadata
      (Some (jsOr (ownProp body "mediatype") (JStr (defaultMediatype rule))))
      (Some (jsOr (ownProp body "mimetype") (JStr (defaultMimetype rule))))
      (Some (jsOr (ownProp body "fileName") (JStr (defaultFileName rule))))
      (Some (jsOr (ownProp body "media") (JStr candidate)))).
Proof.
  intros Hbody. unfold base64Branch, matchingRule.
  rewrite !(getProp_readable body _ Hbody).
  cbv beta iota delta [bind base64Rules find option_map fst snd
                       VIDEO_SIZE_THRESHOLD AUDIO_SIZE_THRESHOLD].
  repeat match goal with
         | |- context [if ?c then _ else _] => destruct c
         end; eexists; split; reflexivity.
Qed.

Lemma inferMediaMetadata_readable lib body analysis :
  isNullish body = false ->
  exists record, inferMediaMetadata lib body analysis = Normal record.
Proof.
  intros Hbody. unfold inferMediaMetadata.
  destruct (found (urlCandidate lib analysis)) as [url|].
  - rewrite (urlBranch_readable lib body url Hbody). eauto.
  - destruct (found (base64Candidate lib analysis)) as [candidate|]; [|eauto].
    destruct (base64Branch_readable body candidate Hbody) as (rule & _ & ->). eauto.
Qed.

Lemma base64Candidate_none lib analysis :
  (forall s, In (JStr s) (values analysis) ->
             LONG_STRING_THRESHOLD < Str.length s -> isBase64 lib s = false) ->
  base64Candidate lib analysis = None.
Proof.
  intros H. destruct (base64Candidate lib analysis) as [c|] eqn:E; trivial.
  pose proof (base64Candidate_long lib analysis c E) as [Hlen Hb].
  unfold base64Candidate in E. apply find_some in E as [Hin _].
  apply stringValues_In in Hin. rewrite (H c Hin Hlen) in Hb. discriminate.
Qed.

Lemma inferMediaMetadata_no_candidate lib body analysis :
  urlCandidate lib analysis = None -> base64Candidate lib analysis = None ->
  inferMediaMetadata lib body analysis = Normal emptyMetadata.
Proof. intros Hurl Hb64. unfold inferMediaMetadata. now rewrite Hurl, Hb64. Qed.

(** A payload that is [null], [undefined] or a primitive flattens to nothing. *)
Lemma analyze_nullish payload :
  isNullish payload = true -> values (analyzeMessagePayload payload) = [].
Proof. destruct payload; try discriminate; reflexivity. Qed.

(** ** Returning normally *)

(** The claim of C3 fails on a [null] body: with a URL among the values,
    the first read, [body.media], throws. *)
Lemma null_body_with_url_throws :
  found (urlCandidate sampleLib (analysisOf [JStr pictureUrl])) = Some pictureUrl /\
  inferMediaMetadata sampleLib JNull (analysisOf [JStr pictureUrl]) = Throw TypeError.
Proof. split; reflexivity. Qed.

(** C3, amended. [inferMediaMetadata] returns a record for every analysis
    when [body] is neither [null] nor [undefined], and for every [body], these
    two included, when the analysis is that of [body] itself; and for every
    [body] and analysis, when no string value passes the URL test and none is
    a base64 candidate (longer than 200 and passing the base64 test), it
    returns the empty record. *)
Theorem inferMediaMetadata_returns :
  (forall lib body analysis,
     isNullish body = false ->
     exists record, inferMediaMetadata lib body analysis = Normal record) /\
  (forall lib body,
     exists record, inferMediaMetadata lib body (analyzeMessagePayload body) = Normal record) /\
  (forall lib body analysis,
     (forall s, In (JStr s) (values analysis) -> isURL lib s = false) ->
     (forall s, In (JStr s) (values analysis) ->
                LONG_STRING_THRESHOLD < Str.length s -> isBase64 lib s = false) ->
     inferMediaMetadata lib body analysis = Normal emptyMetadata).
Proof.
  split; [|split].
  - exact inferMediaMetadata_readable.
  - intros lib body. destruct (isNullish body) eqn:Hbody.
    + exists emptyMetadata. apply inferMediaMetadata_no_candidate.
      * unfold urlCandidate. now rewrite (analyze_nullish body Hbody).
      * unfold base64Candidate. now rewrite (analyze_nullish body Hbody).
    + now apply inferMediaMetadata_readable.
  - intros lib body analysis Hurl Hb64. apply inferMediaMetadata_no_candidate.
    + now apply urlCandidate_none.
    + now apply base64Candidate_none.
Qed.

Lemma inferMediaMetadata_returns_witness :
  (exists record,
     inferMediaMetadata sampleLib emptyBody (analysisOf [JStr pictureUrl]) = Normal record) /\
  (exists record,
     inferMediaMetadata sampleLib JNull (analyzeMessagePayload JNull) = Normal record) /\
  inferMediaMetadata sampleLib JNull
    (analysisOf [JStr "see you at 5"; JNum 3; JStr tinyBase64])
    = Normal emptyMetadata.
Proof.
  destruct inferMediaMetadata_returns as (Hreadable & Hown & Hnone).
  split; [|split].
  - apply Hreadable. reflexivity.
  - apply Hown.
  - apply Hnone.
    + intros s [[= <-]|[[=]|[[= <-]|[]]]]; reflexivity.
    + intros s [[= <-]|[[=]|[[= <-]|[]]]]; vm_compute; intros H; discriminate H.
Defined.

(** ** Fields the caller supplies *)

(** The claim of C2 fails for [fileName] in the URL branch: a body with the
    file name ["photo.png"] and a URL among the values give a record with no
    file name at all. *)
Lemma url_branch_leaves_out_body_fileName :
  getProp bodyWithFileName "fileName" = Normal (JStr "photo.png") /\
  truthy (JStr "photo.png") = true /\
  urlBranchFires sampleLib (analysisOf [JStr pictureUrl]) = true /\
  inferMediaMetadata sampleLib bodyWithFileName (analysisOf [JStr pictureUrl]) =
    Normal (mkMediaMetadata (Some (JStr "image")) (Some (JStr "image/png")) None
                            (Some (JStr pictureUrl))).
Proof. repeat split; reflexivity. Qed.

(** C2, amended. On a body whose properties can be read, whenever the URL
    branch or the base64 branch fires, each of [media], [mimetype] and
    [mediatype] that is truthy on [body] is in the record unchanged, and so is
    a truthy [fileName] when it is the base64 branch that fires; when the URL
    branch fires a truthy [body.fileName] is not recomputed either: the record
    then has no [fileName].  With a URL candidate, a body carrying the
    mimetype ["x/y"] gives a record whose mimetype is ["x/y"]. *)
Theorem caller_fields_kept :
  (forall lib body analysis,
     isNullish body = false ->
     urlBranchFires lib analysis = true \/ base64BranchFires lib analysis = true ->
     exists record,
       inferMediaMetadata lib body analysis = Normal record /\
       (truthy (ownProp body "media") = true ->
          mediaRef record = Some (ownProp body "media")) /\
       (truthy (ownProp body "mimetype") = true ->
          mimetype record = Some (ownProp body "mimetype")) /\
       (truthy (ownProp body "mediatype") = true ->
          mediatype record = Some (ownProp body "mediatype")) /\
       (truthy (ownProp body "fileName") = true ->
          fileName record =
          if urlBranchFires lib analysis then None else Some (ownProp body "fileName"))) /\
  (forall lib analysis,
     urlBranchFires lib analysis = true ->
     exists record,
       inferMediaMetadata lib bodyWithMimetype analysis = Normal record /\
       mimetype record = Some (JStr "x/y")).
Proof.
  assert (Hmain : forall lib body analysis,
     isNullish body = false ->
     urlBranchFires lib analysis = true \/ base64BranchFires lib analysis = true ->
     exists record,
       inferMediaMetadata lib body analysis = Normal record /\
       (truthy (ownProp body "media") = true ->
          mediaRef record = Some (ownProp body "media")) /\
       (truthy (ownProp body "mimetype") = true ->
          mimetype record = Some (ownProp body "mimetype")) /\
       (truthy (ownProp body "mediatype") = true ->
          mediatype record = Some (ownProp body "mediatype")) /\
       (truthy (ownProp body "fileName") = true ->
          fileName record =
          if urlBranchFires lib analysis then None else Some (ownProp body "fileName"))).
  { intros lib body analysis Hbody Hfires.
    unfold base64BranchFires, urlBranchFires, inferMediaMetadata in *.
    destruct (found (urlCandidate lib analysis)) as [url|].
    - rewrite (urlBranch_readable lib body url Hbody). eexists. split; [reflexivity|].
      cbn [mediaRef mimetype mediatype fileName]. unfold jsOr.
      repeat split; intros H; rewrite ?H; cbn [negb andb]; rewrite ?H; reflexivity.
    - destruct Hfires as [Hfires|Hfires]; [discriminate|]. cbn [negb andb] in Hfires.
      destruct (found (base64Candidate lib analysis)) as [candidate|]; [|discriminate].
      destruct (base64Branch_readable body candidate Hbody) as (rule & _ & ->).
      eexists. split; [reflexivity|].
      cbn [mediaRef mimetype mediatype fileName]. unfold jsOr.
      repeat split; intros H; rewrite ?H; cbn [negb andb]; rewrite ?H; reflexivity. }
  split; [exact Hmain|].
  intros lib analysis Hfires.
  destruct (Hmain lib bodyWithMimetype analysis eq_refl (or_introl Hfires))
    as (record & Hrecord & _ & Hmime & _).
  exists record. split; [exact Hrecord|]. now apply Hmime.
Qed.

Lemma caller_fields_kept_witness :
  (exists record,
     inferMediaMetadata sampleLib bodyWithFileName (analysisOf [JStr shortBase64])
       = Normal record /\
     fileName record = Some (JStr "photo.png")) /\
  (exists record,
     inferMediaMetadata sampleLib bodyWithMimetype (analysisOf [JStr pictureUrl])
       = Normal record /\
     mimetype record = Some (JStr "x/y")).
Proof.
  split.
  - destruct (proj1 caller_fields_kept sampleLib bodyWithFileName
                (analysisOf [JStr shortBase64]) eq_refl (or_intror eq_refl))
      as (record & Hrecord & _ & _ & _ & Hname).
    exists record. split; [exact Hrecord | exact (Hname eq_refl)].
  - apply (proj2 caller_fields_kept sampleLib (analysisOf [JStr pictureUrl])).
    reflexivity.
Defined.

(** ** The file name of the URL branch *)

(** The claim of C4 fails on a URL that ends in a dot: nothing is looked up
    for it, the text after its last dot is empty, and the record gets no
    [fileName] although the body has none. *)
Lemma url_ending_in_dot_gets_no_fileName :
  found (urlCandidate sampleLib (analysisOf [JStr dotUrl])) = Some dotUrl /\
  getProp emptyBody "fileName" = Normal JUndefined /\
  mimeLookup sampleLib dotUrl = None /\
  mimeExtension sampleLib "" = None /\
  Str.pop (Str.splitDot dotUrl) = Some "" /\
  inferMediaMetadata sampleLib emptyBody (analysisOf [JStr dotUrl]) =
    Normal (mkMediaMetadata (Some (JStr "document")) (Some JUndefined) None
                            (Some (JStr dotUrl))).
Proof. repeat split; reflexivity. Qed.

(** C4, amended. In the URL branch, when [body.fileName] is absent (or
    otherwise falsy), the extension is the registry's extension for the
    looked-up MIME type or, when that mapping fails, the text after the last
    dot of the URL (the whole URL when it has no dot); [fileName] is
    synthesized as "media.<ext>" when that extension is not empty, and the
    record has no [fileName] when it is empty. *)
Theorem url_fileName_synthesis :
  forall lib body analysis url,
    found (urlCandidate lib analysis) = Some url ->
    isNullish body = false ->
    truthy (ownProp body "fileName") = false ->
    exists record,
      inferMediaMetadata lib body analysis = Normal record /\
      fileName record =
        (if truthyStr (urlExtension lib url)
         then Some (JStr ("media." ++ urlExtension lib url))
         else None) /\
      (orUndefined (mimeExtension lib
         (match orUndefined (mimeLookup lib url) with Some m => m | None => "" end)) = None ->
       urlExtension lib url = afterLastDot url /\
       noDot (afterLastDot url) = true /\
       (afterLastDot url = url \/ exists before, url = before ++ "." ++ afterLastDot url)).
Proof.
  intros lib body analysis url Hurl Hbody Hname.
  unfold inferMediaMetadata. rewrite Hurl, (urlBranch_readable lib body url Hbody).
  eexists. split; [reflexivity|]. cbn [fileName]. rewrite Hname. cbn [negb andb].
  split; [reflexivity|].
  intros Hext. unfold urlExtension. rewrite Hext.
  split; [reflexivity | apply afterLastDot_spec].
Qed.

Lemma url_fileName_synthesis_witness :
  (exists record,
     inferMediaMetadata sampleLib emptyBody (analysisOf [JStr pictureUrl]) = Normal record /\
     fileName record = Some (JStr "media.png")) /\
  (exists record,
     inferMediaMetadata sampleLib emptyBody
       (analysisOf [JStr "https://example.com/get/report.v2"]) = Normal record /\
     fileName record = Some (JStr "media.v2")).
Proof.
  split.
  - destruct (url_fileName_synthesis sampleLib emptyBody (analysisOf [JStr pictureUrl])
                pictureUrl eq_refl eq_refl eq_refl) as (record & Hrecord & Hname & _).
    exists record. split; [exact Hrecord | exact Hname].
  - destruct (url_fileName_synthesis sampleLib emptyBody
                (analysisOf [JStr "https://example.com/get/report.v2"])
                "https://example.com/get/report.v2" eq_refl eq_refl eq_refl)
      as (record & Hrecord & Hname & _).
    exists record. split; [exact Hrecord | exact Hname].
Defined.

(** ** The base64 branch *)

Lemma urlBranchFires_of_url lib analysis :
  isURL lib "" = false ->
  (exists s, In (JStr s) (values analysis) /\ isURL lib s = true) ->
  exists url, found (urlCandidate lib analysis) = Some url.
Proof.
  intros Hempty Hsome.
  destruct (urlCandidate_some lib analysis Hsome) as (url & -> & Hurl).
  exists url. unfold found, orUndefined.
  destruct url; [congruence | reflexivity].
Qed.

Lemma find_app_first {A : Type} (p : A -> bool) (before after : list A) (x : A) :
  (forall y, In y before -> p y = false) -> p x = true ->
  find p (before ++ x :: after)%list = Some x.
Proof.
  intros Hbefore Hx. induction before as [|a before IH]; cbn [app find].
  - now rewrite Hx.
  - rewrite (Hbefore a (or_introl eq_refl)). apply IH.
    intros y Hy. apply Hbefore. now right.
Qed.

(** C6. The base64 branch is considered only when no string value passes
    the URL test: once a URL candidate is found, which happens as soon as a
    string value passes the URL test (a test that refuses the empty string,
    as that of [class-validator] does), the result does not depend on the
    base64 test at all; and when no string value passes it the result is that
    of the base64 branch on its candidate, if any.  The candidate is the first
    string value that is longer than 200 and passes the base64 test: a
    candidate is such a string with no such string before it, every such
    string with none before it is the candidate, and there is no candidate
    only when no string value is longer than 200 and passes the test.  So a
    string of length 150 is never that candidate, whatever the base64 test
    says of it. *)
Theorem base64_branch_selection :
  (forall lib test body analysis url,
     found (urlCandidate lib analysis) = Some url ->
     inferMediaMetadata (withBase64 lib test) body analysis =
     inferMediaMetadata lib body analysis) /\
  (forall lib test body analysis,
     isURL lib "" = false ->
     (exists s, In (JStr s) (values analysis) /\ isURL lib s = true) ->
     inferMediaMetadata (withBase64 lib test) body analysis =
     inferMediaMetadata lib body analysis) /\
  (forall lib body analysis,
     (forall s, In (JStr s) (values analysis) -> isURL lib s = false) ->
     inferMediaMetadata lib body analysis =
     match base64Candidate lib analysis with
     | Some candidate => base64Branch body candidate
     | None => Normal emptyMetadata
     end) /\
  (forall lib analysis candidate,
     base64Candidate lib analysis = Some candidate ->
     200 < Str.length candidate /\
     isBase64 lib candidate = true /\
     exists before after,
       stringValues (values analysis) = (before ++ candidate :: after)%list /\
       forall s, In s before -> 200 < Str.length s -> isBase64 lib s = false) /\
  (forall lib analysis s,
     Str.length s = 150 -> base64Candidate lib analysis <> Some s) /\
  (forall lib analysis candidate before after,
     stringValues (values analysis) = (before ++ candidate :: after)%list ->
     200 < Str.length candidate ->
     isBase64 lib candidate = true ->
     (forall s, In s before -> 200 < Str.length s -> isBase64 lib s = false) ->
     base64Candidate lib analysis = Some candidate) /\
  (forall lib analysis,
     base64Candidate lib analysis = None ->
     forall s, In (JStr s) (values analysis) ->
               200 < Str.length s -> isBase64 lib s = false).
Proof.
  assert (Hskip : forall lib test body analysis url,
     found (urlCandidate lib analysis) = Some url ->
     inferMediaMetadata (withBase64 lib test) body analysis =
     inferMediaMetadata lib body analysis).
  { intros lib test body analysis url Hurl. unfold inferMediaMetadata.
    change (urlCandidate (withBase64 lib test) analysis) with (urlCandidate lib analysis).
    now rewrite Hurl. }
  split; [exact Hskip|]. split; [|split; [|split; [|split; [|split]]]].
  - intros lib test body analysis Hempty Hsome.
    destruct (urlBranchFires_of_url lib analysis Hempty Hsome) as (url & Hurl).
    now apply (Hskip lib test body analysis url).
  - intros lib body analysis Hnone. unfold inferMediaMetadata.
    rewrite (urlCandidate_none lib analysis Hnone). cbn [found orUndefined].
    destruct (base64Candidate lib analysis) as [candidate|] eqn:E; [|reflexivity].
    now rewrite <- E, (found_base64Candidate lib analysis candidate E).
  - intros lib analysis candidate Hcandidate.
    destruct (base64Candidate_long lib analysis candidate Hcandidate) as [Hlen Hb64].
    repeat split; trivial.
    unfold base64Candidate in Hcandidate.
    apply find_first in Hcandidate as (before & after & Hsplit & _ & Hbefore).
    exists before, after. split; [exact Hsplit|].
    intros s Hs Hlong. specialize (Hbefore s Hs).
    apply andb_false_iff in Hbefore as [Hshort|Hno]; [|exact Hno].
    apply Z.ltb_ge in Hshort. unfold LONG_STRING_THRESHOLD in Hshort. lia.
  - intros lib analysis s Hlen Hcandidate.
    apply base64Candidate_long in Hcandidate as [Hlong _].
    unfold LONG_STRING_THRESHOLD in Hlong. lia.
  - intros lib analysis candidate before after Hsplit Hlen Hb64 Hbefore.
    unfold base64Candidate, LONG_STRING_THRESHOLD. rewrite Hsplit.
    apply find_app_first.
    + intros s Hs. destruct (200 <? Str.length s) eqn:Hlong; [|reflexivity].
      apply Z.ltb_lt in Hlong. now rewrite (Hbefore s Hs Hlong).
    + apply Z.ltb_lt in Hlen. now rewrite Hlen, Hb64.
  - intros lib analysis Hnone s Hin Hlen.
    unfold base64Candidate, LONG_STRING_THRESHOLD in Hnone.
    apply stringValues_In in Hin.
    pose proof (find_none _ _ Hnone s Hin) as Hs. cbv beta in Hs.
    apply Z.ltb_lt in Hlen. now rewrite Hlen in Hs.
Qed.

Lemma base64_branch_selection_witness :
  inferMediaMetadata (withBase64 sampleLib (fun _ => true)) emptyBody
    (analysisOf [JStr shortBase64; JStr pictureUrl]) =
  inferMediaMetadata sampleLib emptyBody (analysisOf [JStr shortBase64; JStr pictureUrl]) /\
  inferMediaMetadata sampleLib emptyBody (analysisOf [JStr tinyBase64; JStr shortBase64]) =
  base64Branch emptyBody shortBase64 /\
  200 < Str.length shortBase64 /\
  base64Candidate sampleLib (analysisOf [JStr tinyBase64]) <> Some tinyBase64 /\
  base64Candidate sampleLib
    (analysisOf [JStr tinyBase64; JNum 3; JStr tinyBase64; JStr shortBase64])
    = Some shortBase64 /\
  isBase64 sampleLib oddBase64 = false.
Proof.
  destruct base64_branch_selection
    as (_ & Hskip & Hreach & Hfirst & Hfloor & Hselect & Hnone).
  split; [|split; [|split; [|split; [|split]]]].
  - apply Hskip; [reflexivity|].
    exists pictureUrl. split; [right; left; reflexivity | reflexivity].
  - apply (Hreach sampleLib emptyBody (analysisOf [JStr tinyBase64; JStr shortBase64])).
    intros s [[= <-]|[[= <-]|[]]]; reflexivity.
  - apply (Hfirst sampleLib (analysisOf [JStr tinyBase64; JStr shortBase64]) shortBase64).
    reflexivity.
  - apply Hfloor. reflexivity.
  - apply (Hselect sampleLib
             (analysisOf [JStr tinyBase64; JNum 3; JStr tinyBase64; JStr shortBase64])
             shortBase64 [tinyBase64; tinyBase64] []); try reflexivity.
    intros s [<-|[<-|[]]] Hlen; vm_compute in Hlen; discriminate Hlen.
  - apply (Hnone sampleLib (analysisOf [JStr tinyBase64; JStr oddBase64]));
      [reflexivity | right; left; reflexivity | reflexivity].
Defined.

(** C7. When the base64 branch selects a candidate of length 5,000,000
    whose lower-cased content has none of the markers "audio/ogg", ".ogg",
    "image/jpeg", ".jpg", "jpeg", and [body] supplies no [mediatype],
    [mimetype] or [fileName], the record says [video], ["video/mp4"] and
    ["video.mp4"]. *)
Theorem large_unmarked_base64_is_video :
  forall lib body analysis candidate,
    found (urlCandidate lib analysis) = None ->
    base64Candidate lib analysis = Some candidate ->
    Str.length candidate = 5000000 ->
    (forall marker, In marker base64Markers ->
                    Str.includes (Str.toLowerCase candidate) marker = false) ->
    isNullish body = false ->
    truthy (ownProp body "mediatype") = false ->
    truthy (ownProp body "mimetype") = false ->
    truthy (ownProp body "fileName") = false ->
    exists record,
      inferMediaMetadata lib body analysis = Normal record /\
      mediatype record = Some (JStr "video") /\
      mimetype record = Some (JStr "video/mp4") /\
      fileName record = Some (JStr "video.mp4").
Proof.
  intros lib body analysis candidate Hurl Hcandidate Hlen Hmarkers Hbody Htype Hmime Hname.
  unfold inferMediaMetadata.
  rewrite Hurl, (found_base64Candidate lib analysis candidate Hcandidate).
  unfold base64Branch. rewrite !(getProp_readable body _ Hbody). cbn [bind].
  rewrite !Hmarkers by (unfold base64Markers; cbn [In]; tauto).
  unfold VIDEO_SIZE_THRESHOLD. rewrite Hlen. cbn [orb].
  change (4000000 <? 5000000) with true. cbv iota.
  eexists. split; [reflexivity|].
  cbn [mediatype mimetype fileName]. unfold jsOr. now rewrite Htype, Hmime, Hname.
Qed.

Lemma longBase64_length : Str.length longBase64 = 5000000.
Proof. apply length_replicate. discriminate. Qed.

Lemma longBase64_unmarked marker :
  In marker base64Markers -> Str.includes (Str.toLowerCase longBase64) marker = false.
Proof.
  unfold base64Markers; cbn [In].
  intros [<-|[<-|[<-|[<-|[<-|[]]]]]]; apply includes_replicate; discriminate.
Qed.

Lemma longBase64_candidate :
  found (urlCandidate sampleLib (analysisOf [JStr longBase64])) = None /\
  base64Candidate sampleLib (analysisOf [JStr longBase64]) = Some longBase64.
Proof.
  unfold urlCandidate, base64Candidate.
  cbn [analysisOf values stringValues find isURL isBase64 sampleLib].
  unfold sampleIsURL, sampleIsBase64, LONG_STRING_THRESHOLD.
  rewrite (bareWord_long longBase64) by (rewrite longBase64_length; reflexivity).
  rewrite longBase64_length.
  rewrite (truthyStr_long longBase64) by (rewrite longBase64_length; reflexivity).
  unfold longBase64.
  rewrite !startsWith_replicate by discriminate.
  rewrite allChars_replicate by reflexivity.
  split; reflexivity.
Qed.

Lemma large_unmarked_base64_is_video_witness :
  exists record,
    inferMediaMetadata sampleLib emptyBody (analysisOf [JStr longBase64]) = Normal record /\
    mediatype record = Some (JStr "video") /\
    mimetype record = Some (JStr "video/mp4") /\
    fileName record = Some (JStr "video.mp4").
Proof.
  apply (large_unmarked_base64_is_video sampleLib emptyBody (analysisOf [JStr longBase64])
           longBase64).
  - exact (proj1 longBase64_candidate).
  - exact (proj2 longBase64_candidate).
  - exact longBase64_length.
  - exact longBase64_unmarked.
  - reflexivity.
  - reflexivity.
  - reflexivity.
  - reflexivity.
Defined.

(** C10. Whenever the base64 branch selects a candidate, the record that
    comes back (one does, [body] being readable) has all four fields:
    [media] is [body.media] when truthy and the candidate otherwise, and each
    of [mediatype], [mimetype] and [fileName] is the body's value when truthy
    and otherwise the default of the matching rule of [base64Rules]. *)
Theorem base64_branch_fills_every_field :
  forall lib body analysis candidate,
    found (urlCandidate lib analysis) = None ->
    base64Candidate lib analysis = Some candidate ->
    isNullish body = false ->
    exists record rule,
      inferMediaMetadata lib body analysis = Normal record /\
      matchingRule candidate = Some rule /\
      mediaRef record =
        Some (if truthy (ownProp body "media") then ownProp body "media"
              else JStr candidate) /\
      mediatype record =
        Some (if truthy (ownProp body "mediatype") then ownProp body "mediatype"
              else JStr (defaultMediatype rule)) /\
      mimetype record =
        Some (if truthy (ownProp body "mimetype") then ownProp body "mimetype"
              else JStr (defaultMimetype rule)) /\
      fileName record =
        Some (if truthy (ownProp body "fileName") then ownProp body "fileName"
              else JStr (defaultFileName rule)).
Proof.
  intros lib body analysis candidate Hurl Hcandidate Hbody.
  destruct (base64Branch_readable body candidate Hbody) as (rule & Hrule & Hbranch).
  unfold inferMediaMetadata.
  rewrite Hurl, (found_base64Candidate lib analysis candidate Hcandidate), Hbranch.
  eexists. exists rule. repeat split. exact Hrule.
Qed.

Lemma base64_branch_fills_every_field_witness :
  exists record rule,
    inferMediaMetadata sampleLib bodyWithFileName (analysisOf [JStr shortBase64])
      = Normal record /\
    matchingRule shortBase64 = Some rule /\
    mediaRef record = Some (JStr shortBase64) /\
    mediatype record = Some (JStr (defaultMediatype rule)) /\
    mimetype record = Some (JStr (defaultMimetype rule)) /\
    fileName record = Some (JStr "photo.png").
Proof.
  exact (base64_branch_fills_every_field sampleLib bodyWithFileName
           (analysisOf [JStr shortBase64]) shortBase64 eq_refl eq_refl eq_refl).
Defined.

(** * Further properties of the flattener *)

(** ** A deeper induction on values

    The callback walks the elements of an array entry itself, so a proof
    about an entry needs the property of the elements of its value too. *)
Lemma JsValue_ind_deep (P : JsValue -> Prop) :
  (forall v, isContainer v = false -> P v) ->
  (forall items,
     Forall P items ->
     Forall (fun item => forall xs, item = JArr xs -> Forall P xs) items ->
     P (JArr items)) ->
  (forall entries,
     Forall (fun e => P (snd e)) entries ->
     Forall (fun e => forall xs, snd e = JArr xs -> Forall P xs) entries ->
     P (JObj entries)) ->
  forall v, P v.
Proof.
  intros Hscalar Harr Hobj v.
  enough (H : P v /\ forall xs, v = JArr xs -> Forall P xs) by apply H.
  induction v as [| | b | n | | s | items IH | entries IH] using JsValue_ind;
    try (split; [apply Hscalar; unfold isContainer; cbn [truthy typeofObject];
                 now rewrite ?andb_false_r
                | discriminate]).
  - assert (Hall : Forall P items) by (eapply Forall_impl; [|exact IH]; now intros x [Hx _]).
    split.
    + apply Harr; trivial. eapply Forall_impl; [|exact IH]. now intros x [_ Hx].
    + now intros xs [= <-].
  - split; [|discriminate]. apply Hobj.
    + eapply Forall_impl; [|exact IH]. now intros e [He _].
    + eapply Forall_impl; [|exact IH]. now intros e [_ He].
Qed.

Lemma isContainer_scalar v :
  isContainer v = false -> below v = [] /\ forall w, ~ child v w.
Proof.
  destruct v; try discriminate; intros _; (split; [reflexivity | intros w H; inversion H]).
Qed.

(** ** The flattener only appends *)

Lemma extend_empty_l more : extend emptyAccumulator more = more.
Proof. now destruct more. Qed.

Lemma extend_empty_r acc : extend acc emptyAccumulator = acc.
Proof. destruct acc. unfold extend; cbn. now rewrite !app_nil_r. Qed.

Lemma extend_assoc a b c : extend (extend a b) c = extend a (extend b c).
Proof. unfold extend; cbn. now rewrite !app_assoc. Qed.

Lemma appendsOnly_id : appendsOnly (fun acc => acc).
Proof. intros acc. now rewrite extend_empty_r. Qed.

Lemma appendsOnly_push path value : appendsOnly (push path value).
Proof. intros acc. reflexivity. Qed.

Lemma appendsOnly_compose f g :
  appendsOnly f -> appendsOnly g -> appendsOnly (fun acc => g (f acc)).
Proof.
  intros Hf Hg acc.
  rewrite (Hg (f acc)), (Hf acc), (Hg (f emptyAccumulator)). apply extend_assoc.
Qed.

Section CallbacksAppend.

Variable recur : JsValue -> string -> Accumulator -> Accumulator.

Lemma forEachItem_appendsOnly items :
  Forall (fun item => forall p, appendsOnly (recur item p)) items ->
  forall path index, appendsOnly (forEachItem recur path items index).
Proof.
  induction 1 as [|item rest Hitem _ IH]; intros path index; cbn [forEachItem].
  - apply appendsOnly_id.
  - apply (appendsOnly_compose
             (fun acc => if truthy item && typeofObject item
                         then recur item (indexPath path index)
                                (push (indexPath path index) item acc)
                         else push (indexPath path index) item acc)
             (forEachItem recur path rest (S index))); [|apply IH].
    destruct (truthy item && typeofObject item).
    + apply (appendsOnly_compose (push _ item) (recur item _)); [apply appendsOnly_push | apply Hitem].
    + apply appendsOnly_push.
Qed.

Lemma onEntry_appendsOnly prefix key value :
  (forall p, appendsOnly (recur value p)) ->
  (forall items, value = JArr items ->
     Forall (fun item => forall p, appendsOnly (recur item p)) items) ->
  appendsOnly (onEntry recur prefix key value).
Proof.
  intros Hvalue Hitems. unfold onEntry.
  destruct value as [| | b | n | | s | items | entries]; cbn [truthy typeofObject andb];
    try apply appendsOnly_push.
  - destruct b; apply appendsOnly_push.
  - destruct (negb (n =? 0)); apply appendsOnly_push.
  - destruct (negb (s =? "")%string); apply appendsOnly_push.
  - apply (appendsOnly_compose (push _ (JArr items)) (forEachItem recur _ items 0));
      [apply appendsOnly_push | apply forEachItem_appendsOnly, (Hitems items eq_refl)].
  - apply (appendsOnly_compose (push _ (JObj entries)) (recur (JObj entries) _));
      [apply appendsOnly_push | apply Hvalue].
Qed.

End CallbacksAppend.

Lemma collectFieldArrays_appendsOnly payload :
  forall prefix, appendsOnly (collectFieldArrays payload prefix).
Proof.
  induction payload as [v Hv | items IH IHdeep | entries IH IHdeep] using JsValue_ind_deep;
    intros prefix.
  - destruct v; try discriminate Hv; apply appendsOnly_id.
  - cbn [collectFieldArrays]. generalize 0%nat.
    induction IH as [|value rest Hvalue _ IHrest]; intros index; cbn [forEachIndexed].
    + apply appendsOnly_id.
    + inversion IHdeep as [|? ? Hdeep Hrest]; subst.
      apply (appendsOnly_compose
               (onEntry collectFieldArrays prefix (Str.ofIndex index) value)
               (forEachIndexed collectFieldArrays prefix rest (S index)));
        [apply onEntry_appendsOnly; trivial | apply IHrest; trivial].
  - cbn [collectFieldArrays].
    induction IH as [|[key value] rest Hvalue _ IHrest]; cbn [forEachEntry].
    + apply appendsOnly_id.
    + inversion IHdeep as [|? ? Hdeep Hrest]; subst.
      apply (appendsOnly_compose
               (onEntry collectFieldArrays prefix key value)
               (forEachEntry collectFieldArrays prefix rest));
        [apply onEntry_appendsOnly; trivial | apply IHrest; trivial].
Qed.

(** X1. [collectFieldArrays] never touches what the accumulator holds: both
    sequences of the result start with those of the accumulator it was given,
    and what follows them is what the call records from an empty one. *)
Theorem collectFieldArrays_extends_accumulator :
  forall payload prefix acc,
    accFieldNames (collectFieldArrays payload prefix acc) =
      (accFieldNames acc ++
       accFieldNames (collectFieldArrays payload prefix emptyAccumulator))%list /\
    accValues (collectFieldArrays payload prefix acc) =
      (accValues acc ++
       accValues (collectFieldArrays payload prefix emptyAccumulator))%list.
Proof.
  intros payload prefix acc.
  rewrite (collectFieldArrays_appendsOnly payload prefix acc). split; reflexivity.
Qed.

(** ** The values, in order *)

Lemma accValues_push path value acc :
  accValues (push path value acc) = (accValues acc ++ [value])%list.
Proof. reflexivity. Qed.

Lemma accFieldNames_push path value acc :
  accFieldNames (push path value acc) = (accFieldNames acc ++ [path])%list.
Proof. reflexivity. Qed.

Section CallbacksValues.

Variable recur : JsValue -> string -> Accumulator -> Accumulator.

Lemma forEachItem_values items :
  Forall (addsBelow recur) items ->
  forall path index acc,
    accValues (forEachItem recur path items index acc) =
    (accValues acc ++ flat_map (fun item => item :: below item) items)%list.
Proof.
  induction 1 as [|item rest Hitem _ IH]; intros path index acc; cbn [forEachItem flat_map].
  - now rewrite app_nil_r.
  - rewrite IH. fold (isContainer item).
    destruct (isContainer item) eqn:E.
    + rewrite Hitem, accValues_push, <- !app_assoc. reflexivity.
    + destruct (isContainer_scalar item E) as [-> _].
      rewrite accValues_push, <- !app_assoc. reflexivity.
Qed.

Lemma onEntry_values prefix key value acc :
  addsBelow recur value ->
  (forall items, value = JArr items -> Forall (addsBelow recur) items) ->
  accValues (onEntry recur prefix key value acc) =
  (accValues acc ++ value :: below value)%list.
Proof.
  intros Hvalue Hitems. unfold onEntry.
  assert (Hscalar : isContainer value = false ->
            accValues (push (joinPath prefix key) value acc) =
            (accValues acc ++ value :: below value)%list).
  { intros E. destruct (isContainer_scalar value E) as [-> _]. apply accValues_push. }
  destruct value as [| | b | n | | s | items | entries];
    try (apply Hscalar; reflexivity).
  - fold (isContainer (JBool b)). destruct (isContainer (JBool b)) eqn:E; [|now apply Hscalar].
    destruct b; discriminate E.
  - fold (isContainer (JNum n)). destruct (isContainer (JNum n)) eqn:E; [|now apply Hscalar].
    unfold isContainer in E. now rewrite andb_false_r in E.
  - fold (isContainer (JStr s)). destruct (isContainer (JStr s)) eqn:E; [|now apply Hscalar].
    unfold isContainer in E. now rewrite andb_false_r in E.
  - rewrite (forEachItem_values items (Hitems items eq_refl)), accValues_push, <- app_assoc.
    reflexivity.
  - cbn [truthy typeofObject andb]. rewrite Hvalue, accValues_push, <- app_assoc. reflexivity.
Qed.

End CallbacksValues.

Lemma collectFieldArrays_values payload : addsBelow collectFieldArrays payload.
Proof.
  induction payload as [v Hv | items IH IHdeep | entries IH IHdeep] using JsValue_ind_deep;
    intros prefix acc.
  - destruct (isContainer_scalar v Hv) as [-> _]. rewrite app_nil_r.
    destruct v; try discriminate Hv; reflexivity.
  - cbn [collectFieldArrays below]. generalize 0%nat. revert acc.
    induction IH as [|value rest Hvalue _ IHrest]; intros acc index;
      cbn [forEachIndexed flat_map].
    + now rewrite app_nil_r.
    + inversion IHdeep as [|? ? Hdeep Hrest]; subst.
      rewrite (IHrest Hrest), onEntry_values, <- app_assoc; trivial.
  - cbn [collectFieldArrays below]. revert acc.
    induction IH as [|[key value] rest Hvalue _ IHrest]; intros acc;
      cbn [forEachEntry flat_map].
    + now rewrite app_nil_r.
    + inversion IHdeep as [|? ? Hdeep Hrest]; subst.
      rewrite (IHrest Hrest), onEntry_values, <- app_assoc; trivial.
Qed.

Lemma analyze_values payload : values (analyzeMessagePayload payload) = below payload.
Proof.
  unfold analyzeMessagePayload; cbn [values].
  now rewrite (collectFieldArrays_values payload "" emptyAccumulator).
Qed.

(** X2. The values of an analysis are exactly the values below the payload,
    each one once, a parent before its children and siblings in the order of
    the payload; the payload itself is not among them. *)
Theorem analyze_values_are_preorder :
  forall payload, values (analyzeMessagePayload payload) = below payload.
Proof. exact analyze_values. Qed.

Lemma below_descendant v : forall w, In w (below v) <-> descendant v w.
Proof.
  induction v as [| | b | n | | s | items IH | entries IH] using JsValue_ind; intros w;
    try (split; [intros [] | intros H; inversion H as [? ? Hc|? ? ? Hc]; inversion Hc]).
  - cbn [below]. rewrite in_flat_map. rewrite Forall_forall in IH. split.
    + intros (item & Hin & [<-|Hw]).
      * now apply descendant_child, child_item.
      * apply (descendant_step _ item); [now apply child_item | now apply IH].
    + intros H. inversion H as [? ? Hc|? u ? Hc Hd]; subst; inversion Hc; subst.
      * exists w. split; [assumption | now left].
      * exists u. split; [assumption | right; now apply IH].
  - cbn [below]. rewrite in_flat_map. rewrite Forall_forall in IH. split.
    + intros ([key value] & Hin & [<-|Hw]); cbn [snd] in *.
      * now apply descendant_child, (child_entry _ key).
      * apply (descendant_step _ value); [now apply (child_entry _ key)|].
        now apply (IH (key, value)).
    + intros H. inversion H as [? ? Hc|? u ? Hc Hd]; subst; inversion Hc; subst.
      * eexists. split; [eassumption | now left].
      * eexists. split; [eassumption | right]. cbn [snd].
        match goal with Hin : In (?k, _) entries |- _ => now apply (IH (k, u)) end.
Qed.

(** X3. A value is recorded by the analysis exactly when it lies below the
    payload: it is an element of an array or the value of an entry, at any
    depth.  Nothing below the payload is skipped and nothing else is added. *)
Theorem analyze_records_every_descendant :
  forall payload w,
    In w (values (analyzeMessagePayload payload)) <-> descendant payload w.
Proof. intros payload w. rewrite analyze_values. apply below_descendant. Qed.

(** ** The paths of a shallow object *)

Lemma forEachItem_scalars recur path items :
  Forall (fun item => isContainer item = false) items ->
  forall index acc,
    accFieldNames (forEachItem recur path items index acc) =
    (accFieldNames acc ++ indexPaths path index (List.length items))%list.
Proof.
  induction 1 as [|item rest Hitem _ IH]; intros index acc;
    cbn [forEachItem List.length indexPaths].
  - now rewrite app_nil_r.
  - fold (isContainer item). rewrite Hitem, IH, accFieldNames_push, <- app_assoc.
    reflexivity.
Qed.

Lemma onEntry_shallow recur key value acc :
  shallow value = true ->
  accFieldNames (onEntry recur "" key value acc) =
  (accFieldNames acc ++ shallowPaths (key, value))%list.
Proof.
  intros Hshallow. unfold onEntry, shallowPaths, joinPath. cbn [String.eqb fst snd].
  destruct value as [| | b | n | | s | items | entries];
    try (fold (isContainer (JBool b))); try (fold (isContainer (JNum n)));
    try (fold (isContainer (JStr s))); try (fold (isContainer (JObj entries)));
    try (cbn [shallow] in Hshallow; apply negb_true_iff in Hshallow;
         rewrite ?Hshallow; reflexivity).
  cbn [shallow] in Hshallow. rewrite forEachItem_scalars, accFieldNames_push, <- app_assoc.
  - reflexivity.
  - apply Forall_forall. intros item Hin.
    rewrite forallb_forall in Hshallow. now apply negb_true_iff, Hshallow.
Qed.

Lemma forEachEntry_shallow recur entries :
  Forall (fun e => shallow (snd e) = true) entries ->
  forall acc,
    accFieldNames (forEachEntry recur "" entries acc) =
    (accFieldNames acc ++ flat_map shallowPaths entries)%list.
Proof.
  induction 1 as [|[key value] rest Hvalue _ IH]; intros acc; cbn [forEachEntry flat_map].
  - now rewrite app_nil_r.
  - rewrite IH, (onEntry_shallow recur key value acc Hvalue), <- app_assoc. reflexivity.
Qed.

(** X4. For an object whose values are scalars or arrays of scalars, the
    field names are its keys in order, each array key followed at once by
    [key[0]], [key[1]], ... for its elements. *)
Theorem analyze_paths_of_shallow_object :
  forall entries,
    Forall (fun e => shallow (snd e) = true) entries ->
    fieldNames (analyzeMessagePayload (JObj entries)) = flat_map shallowPaths entries.
Proof.
  intros entries Hshallow. unfold analyzeMessagePayload; cbn [fieldNames collectFieldArrays].
  now rewrite (forEachEntry_shallow collectFieldArrays entries Hshallow emptyAccumulator).
Qed.

Lemma analyze_paths_of_shallow_object_witness :
  fieldNames (analyzeMessagePayload payloadShallow) =
  ["to"; "tags"; "tags[0]"; "tags[1]"; "ok"].
Proof.
  apply (analyze_paths_of_shallow_object
           [("to", JStr "5511"); ("tags", JArr [JStr "a"; JNum 2]); ("ok", JBool true)]).
  repeat constructor.
Defined.

(** ** Nothing to flatten *)

Lemma matchedByField_nil vals : matchedByField [] vals = None.
Proof. reflexivity. Qed.

(** X5. A payload with nothing below it (a number, a string, a boolean,
    [null], [undefined], [{}] or [[]]) has an analysis with no field names,
    no values and the kind [unknown]. *)
Theorem analyze_of_nothing :
  forall payload,
    below payload = [] ->
    analyzeMessagePayload payload = mkMessageAnalysis [] [] unknown.
Proof.
  intros payload Hbelow.
  pose proof (analyze_values payload) as Hvalues. rewrite Hbelow in Hvalues.
  pose proof (collectFieldArrays_parallel payload "" emptyAccumulator parallel_empty) as Hlen.
  unfold analyzeMessagePayload in *. cbn [values] in Hvalues.
  unfold parallel in Hlen. rewrite Hvalues in Hlen |- *.
  destruct (accFieldNames (collectFieldArrays payload "" emptyAccumulator)); [|discriminate].
  reflexivity.
Qed.

Lemma analyze_of_nothing_witness :
  analyzeMessagePayload (JStr "sticker") = mkMessageAnalysis [] [] unknown /\
  analyzeMessagePayload (JObj []) = mkMessageAnalysis [] [] unknown.
Proof.
  split; apply analyze_of_nothing; reflexivity.
Defined.

(** * Further properties of the detection *)

Lemma lowerChar_idempotent c : Str.lowerChar (Str.lowerChar c) = Str.lowerChar c.
Proof. destruct c as [[] [] [] [] [] [] [] []]; reflexivity. Qed.

Lemma toLowerCase_idempotent s : Str.toLowerCase (Str.toLowerCase s) = Str.toLowerCase s.
Proof.
  induction s as [|c s IH]; [reflexivity|].
  cbn [Str.toLowerCase]. now rewrite lowerChar_idempotent, IH.
Qed.

Lemma some_map {A B : Type} (p : B -> bool) (g : A -> B) (xs : list A) :
  some p (map g xs) = some (fun x => p (g x)) xs.
Proof.
  unfold some. induction xs as [|x xs IH]; [reflexivity|].
  cbn [map existsb]. now rewrite IH.
Qed.

Lemma some_ext {A : Type} (p q : A -> bool) (xs : list A) :
  (forall x, p x = q x) -> some p xs = some q xs.
Proof.
  intros H. induction xs as [|x xs IH]; [reflexivity|].
  unfold some in *; cbn [existsb]. now rewrite H, IH.
Qed.

(** A test that reads a path through [normaliseField] cannot tell the paths
    from their lower-case forms. *)
Lemma some_normalised (q : string -> bool) (fields : list string) :
  some (fun f => q (normaliseField f)) (map Str.toLowerCase fields) =
  some (fun f => q (normaliseField f)) fields.
Proof.
  rewrite some_map. apply some_ext. intros f. unfold normaliseField.
  now rewrite toLowerCase_idempotent.
Qed.

Lemma matchedByField_lowercase fields vals :
  matchedByField fields vals = matchedByField (map Str.toLowerCase fields) [].
Proof.
  field_rules.
  rewrite (some_normalised (fun s => Str.includes s "sticker")).
  rewrite (some_normalised (fun s => Str.includes s "reaction")).
  rewrite (some_normalised (oneOf ["template"; "components"; "language"])).
  rewrite (some_normalised (fun s => Str.includes s "buttons")).
  rewrite (some_normalised
             (fun s => Str.includes s "sections" || Str.includes s "buttontext")).
  rewrite (some_normalised (fun s => Str.includes s "latitude")).
  rewrite (some_normalised (fun s => Str.includes s "longitude")).
  rewrite (some_normalised (fun s => Str.includes s "contact")).
  rewrite (some_normalised (fun s => Str.includes s "wuid")).
  rewrite (some_normalised (fun s => Str.includes s "selectablecount")).
  rewrite (some_normalised (fun s => (s =? "statusjidlist")%string)).
  rewrite (some_normalised (fun s => (s =? "allcontacts")%string)).
  rewrite (some_normalised (fun s => Str.includes s "video")).
  rewrite (some_normalised (fun s => Str.includes s "audio")).
  rewrite (some_normalised (oneOf ["media"; "mediatype"; "mimetype"])).
  rewrite (some_normalised (fun s => (s =? "text")%string)).
  reflexivity.
Qed.

(** X6. The field-name phase reads the paths in lower case only and never
    looks at the values: two sets of paths that agree once lower-cased get the
    same answer, whatever the values are. *)
Theorem field_phase_is_case_insensitive :
  forall fields fields' vals vals',
    map Str.toLowerCase fields = map Str.toLowerCase fields' ->
    matchedByField fields vals = matchedByField fields' vals'.
Proof.
  intros fields fields' vals vals' H.
  rewrite (matchedByField_lowercase fields vals), (matchedByField_lowercase fields' vals').
  now rewrite H.
Qed.

Lemma field_phase_is_case_insensitive_witness :
  matchedByField ["Message.ButtonText"] [JNum 1] =
  matchedByField ["message.BUTTONTEXT"] [JStr "sticker"].
Proof.
  apply field_phase_is_case_insensitive. reflexivity.
Defined.

Lemma mentions_lowercase marker strings :
  mentions marker strings =
  some (fun s => Str.includes s marker) (map Str.toLowerCase strings).
Proof. unfold mentions. now rewrite some_map. Qed.

(** X7. The content phase depends on the string values only, read in lower
    case: values of other types are ignored, and so is the case of the
    strings. *)
Theorem content_phase_reads_lowercase_strings :
  forall vals vals',
    map Str.toLowerCase (stringValues vals) = map Str.toLowerCase (stringValues vals') ->
    detectByValues vals = detectByValues vals'.
Proof.
  intros vals vals' H. unfold detectByValues.
  rewrite !mentions_lowercase, H. reflexivity.
Qed.

Lemma content_phase_reads_lowercase_strings_witness :
  detectByValues [JNum 7; JStr "Send a STICKER"; JNull] =
  detectByValues [JStr "send a sticker"; JObj [("sticker", JBool true)]].
Proof.
  apply content_phase_reads_lowercase_strings. reflexivity.
Defined.

(** ** The fallback *)

Lemma matchedByField_known fields vals : matchedByField fields vals <> Some unknown.
Proof.
  field_rules.
  repeat match goal with
         | |- context [if ?c then _ else _] => destruct c
         end; discriminate.
Qed.

Lemma detectByValues_known vals : detectByValues vals <> Some unknown.
Proof.
  unfold detectByValues.
  repeat match goal with
         | |- context [if ?c then _ else _] => destruct c
         end; discriminate.
Qed.

(** X8. The kind is [unknown] exactly when no field-name rule and no content
    rule matches: no rule answers [unknown] itself. *)
Theorem unknown_only_as_fallback :
  forall payload,
    type (analyzeMessagePayload payload) = unknown <->
    matchedByField (fieldNames (analyzeMessagePayload payload))
                   (values (analyzeMessagePayload payload)) = None /\
    detectByValues (values (analyzeMessagePayload payload)) = None.
Proof.
  intros payload. rewrite analyze_type. unfold matchedByValue.
  pose proof (matchedByField_known (fieldNames (analyzeMessagePayload payload))
                                   (values (analyzeMessagePayload payload))) as Hfield.
  pose proof (detectByValues_known (values (analyzeMessagePayload payload))) as Hvalue.
  destruct (matchedByField _ _) as [kind|]; cbn [kindOr].
  - split; [intros -> | intros [H _]; discriminate H]. now contradiction Hfield.
  - destruct (detectByValues _) as [kind|]; cbn [kindOr].
    + split; [intros -> | intros [_ H]; discriminate H]. now contradiction Hvalue.
    + split; [now split | reflexivity].
Qed.

(** ** Order of the rules *)

(** X9. A path that contains "sticker" makes the payload a [sticker]
    whatever else it holds; a string value that contains "sticker" does so
    when no field-name rule matches.  Both are read in lower case. *)
Theorem sticker_comes_first :
  forall payload,
    (exists f, In f (fieldNames (analyzeMessagePayload payload)) /\
               Str.includes (Str.toLowerCase f) "sticker" = true) \/
    (matchedByField (fieldNames (analyzeMessagePayload payload))
                    (values (analyzeMessagePayload payload)) = None /\
     exists s, In (JStr s) (values (analyzeMessagePayload payload)) /\
               Str.includes (Str.toLowerCase s) "sticker" = true) ->
    type (analyzeMessagePayload payload) = sticker.
Proof.
  intros payload H. rewrite analyze_type. unfold matchedByValue.
  destruct H as [Hfield | [Hnone (s & Hin & Hs)]].
  - assert (Hmatch : matchedByField (fieldNames (analyzeMessagePayload payload))
                                    (values (analyzeMessagePayload payload)) = Some sticker).
    { field_rules. apply some_exists in Hfield. unfold normaliseField. now rewrite Hfield. }
    now rewrite Hmatch.
  - rewrite Hnone. unfold detectByValues.
    now rewrite (mentions_true "sticker" _ s Hin Hs).
Qed.

Lemma sticker_comes_first_witness :
  type (analyzeMessagePayload
          (JObj [("text", JStr "hello"); ("media", JObj [("stickerId", JNum 4)])])) = sticker /\
  type (analyzeMessagePayload (JObj [("foo", JStr "this mentions Sticker")])) = sticker.
Proof.
  split; apply sticker_comes_first.
  - left. exists "media.stickerId". split; [right; right; left; reflexivity | reflexivity].
  - right. split; [reflexivity|].
    exists "this mentions Sticker". split; [left; reflexivity | reflexivity].
Defined.

(** ** Rules that compare the whole path *)

Lemma oneOf_In names x : oneOf names x = true -> In x names.
Proof.
  unfold oneOf. intros H. apply existsb_exists in H as (n & Hin & Hn).
  apply String.eqb_eq in Hn as <-. exact Hin.
Qed.

Lemma some_oneOf names fields :
  some (fun f => oneOf names (normaliseField f)) fields = true ->
  exists f, In f fields /\ In (Str.toLowerCase f) names.
Proof.
  intros H. apply some_exists in H as (f & Hin & Hf). exists f. split; trivial.
  now apply oneOf_In.
Qed.

Lemma some_eqb name fields :
  some (fun f => (normaliseField f =? name)%string) fields = true ->
  exists f, In f fields /\ Str.toLowerCase f = name.
Proof.
  intros H. apply some_exists in H as (f & Hin & Hf). exists f. split; trivial.
  now apply String.eqb_eq.
Qed.

Ltac split_rules H :=
  revert H; field_rules;
  repeat match goal with
         | |- context [if ?c then _ else _] =>
             let E := fresh "E" in destruct c eqn:E; try discriminate
         end;
  intros _.

Lemma matchedByField_exact fields vals kind names :
  In (kind, names) exactNameRules ->
  matchedByField fields vals = Some kind ->
  exists f, In f fields /\ In (Str.toLowerCase f) names.
Proof.
  unfold exactNameRules; cbn [In].
  intros Hrule Hmatch.
  destruct Hrule as [Hrule|[Hrule|[Hrule|[Hrule|[]]]]];
    injection Hrule as <- <-; split_rules Hmatch.
  - match goal with E : some (fun f => oneOf _ _) fields = true |- _ =>
      now apply some_oneOf in E end.
  - match goal with E : (_ || _)%bool = true |- _ =>
      apply orb_true_iff in E as [Hs|Hs] end;
      apply some_eqb in Hs as (f & Hin & Hf); exists f; (split; [exact Hin|]);
      rewrite Hf; cbn [In]; tauto.
  - match goal with E : some (fun f => oneOf ["media"; _; _] _) fields = true |- _ =>
      now apply some_oneOf in E end.
  - match goal with E : some (fun f => (_ =? "text")%string) fields = true |- _ =>
      apply some_eqb in E as (f & Hin & Hf) end.
    exists f. split; [exact Hin|]. rewrite Hf. now left.
Qed.

(** Paths made under a prefix, or for an array element, are not plain. *)

Lemma plain_app a b : plain (a ++ b) = plain a && plain b.
Proof.
  unfold plain. induction a as [|c a IH]; [reflexivity|].
  cbn [append allChars]. now rewrite IH, andb_assoc.
Qed.

Lemma plain_joinPath prefix key : prefix <> "" -> plain (joinPath prefix key) = false.
Proof.
  intros Hprefix. unfold joinPath.
  destruct (String.eqb_spec prefix ""); [contradiction|].
  rewrite !plain_app. cbn. now rewrite andb_false_r.
Qed.

Lemma plain_indexPath path index : plain (indexPath path index) = false.
Proof. unfold indexPath. rewrite !plain_app. cbn. now rewrite andb_false_r. Qed.

Lemma plain_nonempty s : plain s = false -> s <> "".
Proof. intros H ->. discriminate H. Qed.

Lemma lowerChar_plain c :
  negb (Ascii.eqb (Str.lowerChar c) ".") && negb (Ascii.eqb (Str.lowerChar c) "[") =
  negb (Ascii.eqb c ".") && negb (Ascii.eqb c "[").
Proof. destruct c as [[] [] [] [] [] [] [] []]; reflexivity. Qed.

Lemma plain_toLowerCase s : plain (Str.toLowerCase s) = plain s.
Proof.
  unfold plain. induction s as [|c s IH]; [reflexivity|].
  cbn [Str.toLowerCase allChars]. now rewrite lowerChar_plain, IH.
Qed.

Section CallbacksNames.

Variable good : string -> Prop.
Hypothesis good_not_plain : forall name, plain name = false -> good name.
Variable recur : JsValue -> string -> Accumulator -> Accumulator.

Lemma namesAll_push path value acc :
  good path -> namesAll good acc -> namesAll good (push path value acc).
Proof.
  unfold namesAll, push; cbn [accFieldNames]. intros Hpath Hacc.
  apply Forall_app. split; [exact Hacc | now constructor].
Qed.

Lemma forEachItem_names items :
  Forall (keepsNames good recur) items ->
  forall path index acc,
    namesAll good acc -> namesAll good (forEachItem recur path items index acc).
Proof.
  induction 1 as [|item rest Hitem _ IH]; intros path index acc Hacc; cbn [forEachItem].
  - exact Hacc.
  - pose proof (plain_indexPath path index) as Hplain.
    apply IH. destruct (truthy item && typeofObject item).
    + apply Hitem; [now apply plain_nonempty|].
      now apply namesAll_push; [apply good_not_plain|].
    + now apply namesAll_push; [apply good_not_plain|].
Qed.

Lemma onEntry_names prefix key value acc :
  good (joinPath prefix key) ->
  joinPath prefix key <> "" ->
  keepsNames good recur value ->
  (forall items, value = JArr items -> Forall (keepsNames good recur) items) ->
  namesAll good acc -> namesAll good (onEntry recur prefix key value acc).
Proof.
  intros Hgood Hpath Hvalue Hitems Hacc. unfold onEntry.
  pose proof (namesAll_push (joinPath prefix key) value acc Hgood Hacc) as Hpush.
  destruct value as [| | b | n | | s | items | entries]; cbn [truthy typeofObject andb];
    trivial.
  - destruct b; exact Hpush.
  - destruct (negb (n =? 0)); exact Hpush.
  - destruct (negb (s =? "")%string); exact Hpush.
  - apply forEachItem_names; [apply (Hitems items eq_refl) | exact Hpush].
  - now apply Hvalue.
Qed.

End CallbacksNames.

Lemma collectFieldArrays_names good :
  (forall name, plain name = false -> good name) ->
  forall payload, keepsNames good collectFieldArrays payload.
Proof.
  intros Hgood payload.
  induction payload as [v Hv | items IH IHdeep | entries IH IHdeep] using JsValue_ind_deep;
    intros prefix acc Hprefix Hacc.
  - destruct v; try discriminate Hv; exact Hacc.
  - cbn [collectFieldArrays]. generalize 0%nat. revert acc Hacc.
    induction IH as [|value rest Hvalue _ IHrest]; intros acc Hacc index;
      cbn [forEachIndexed]; trivial.
    inversion IHdeep as [|? ? Hdeep Hrest]; subst.
    apply (IHrest Hrest).
    pose proof (plain_joinPath prefix (Str.ofIndex index) Hprefix) as Hplain.
    apply onEntry_names; trivial; [now apply Hgood | now apply plain_nonempty].
  - cbn [collectFieldArrays]. revert acc Hacc.
    induction IH as [|[key value] rest Hvalue _ IHrest]; intros acc Hacc;
      cbn [forEachEntry]; trivial.
    inversion IHdeep as [|? ? Hdeep Hrest]; subst.
    apply (IHrest Hrest).
    pose proof (plain_joinPath prefix key Hprefix) as Hplain.
    apply onEntry_names; trivial; [now apply Hgood | now apply plain_nonempty].
Qed.

(** At the top of an object whose keys are not empty, a name is a key or is
    not plain. *)
Lemma forEachEntry_top_names (good : string -> Prop) entries :
  (forall name, plain name = false -> good name) ->
  Forall (fun e => fst e <> "" /\ good (fst e)) entries ->
  forall acc,
    namesAll good acc -> namesAll good (forEachEntry collectFieldArrays "" entries acc).
Proof.
  intros Hgood. induction 1 as [|[key value] rest [Hkey Hkeygood] _ IH]; intros acc Hacc;
    cbn [forEachEntry]; trivial.
  cbn [fst] in *. apply IH.
  apply (onEntry_names good Hgood); trivial.
  - now apply collectFieldArrays_names.
  - intros items _. apply Forall_forall. intros item _.
    now apply collectFieldArrays_names.
Qed.

(** X10. The rules for [template], [status], [media] and [text] compare
    the whole path with their names.  So, for an object without empty keys,
    the field-name phase gives one of these kinds only when a key at the top
    of the payload is, in lower case, one of the names of the rule: a key of
    a nested object or an element of an array never counts for them. *)
Theorem exact_name_rules_need_a_top_level_key :
  forall entries kind names,
    In (kind, names) exactNameRules ->
    Forall (fun e => fst e <> "") entries ->
    matchedByField (fieldNames (analyzeMessagePayload (JObj entries)))
                   (values (analyzeMessagePayload (JObj entries))) = Some kind ->
    exists key, In key (map fst entries) /\ In (Str.toLowerCase key) names.
Proof.
  intros entries kind names Hrule Hkeys Hmatch.
  destruct (matchedByField_exact _ _ kind names Hrule Hmatch) as (f & Hin & Hname).
  assert (Hplain : plain f = true).
  { rewrite <- plain_toLowerCase.
    revert Hname. generalize (Str.toLowerCase f). intros name.
    unfold exactNameRules in Hrule; cbn [In] in Hrule.
    destruct Hrule as [Hrule|[Hrule|[Hrule|[Hrule|[]]]]]; injection Hrule as <- <-;
      cbn [In]; intros Hname;
      repeat (destruct Hname as [<-|Hname]; [reflexivity|]); contradiction. }
  pose (good := fun name => In name (map fst entries) \/ plain name = false).
  assert (Hall : namesAll good (forEachEntry collectFieldArrays "" entries emptyAccumulator)).
  { apply forEachEntry_top_names.
    - intros name Hn. now right.
    - apply Forall_forall. intros e He. split.
      + rewrite Forall_forall in Hkeys. now apply Hkeys.
      + left. now apply in_map.
    - constructor. }
  unfold namesAll in Hall. rewrite Forall_forall in Hall.
  destruct (Hall f Hin) as [Hkey|Hnot].
  - now exists f.
  - rewrite Hplain in Hnot. discriminate.
Qed.

Lemma exact_name_rules_need_a_top_level_key_witness :
  exists key, In key ["caption"; "MimeType"] /\
              In (Str.toLowerCase key) ["media"; "mediatype"; "mimetype"].
Proof.
  apply (exact_name_rules_need_a_top_level_key
           [("caption", JNum 1); ("MimeType", JStr "image/png")] media).
  - right; right; left; reflexivity.
  - repeat constructor; discriminate.
  - reflexivity.
Defined.

(** * Further properties of the inference *)

(** ** When it throws *)

(** X11. [inferMediaMetadata] throws exactly when [body] is [null] or
    [undefined] and one of the two branches fires; the error is the
    [TypeError] of the first read of [body]. *)
Theorem inferMediaMetadata_throws_iff :
  forall lib body analysis,
    inferMediaMetadata lib body analysis = Throw TypeError <->
    isNullish body = true /\
    (urlBranchFires lib analysis = true \/ base64BranchFires lib analysis = true).
Proof.
  intros lib body analysis.
  unfold inferMediaMetadata, base64BranchFires, urlBranchFires.
  destruct (isNullish body) eqn:Hbody.
  - destruct (found (urlCandidate lib analysis)) as [url|].
    + rewrite (urlBranch_nullish lib body url Hbody). intuition.
    + destruct (found (base64Candidate lib analysis)) as [candidate|].
      * rewrite (base64Branch_nullish body candidate Hbody). cbn. intuition.
      * cbn. split; [discriminate | intros [_ [H|H]]; discriminate H].
  - split; [|intros [H _]; discriminate H].
    destruct (found (urlCandidate lib analysis)) as [url|].
    + rewrite (urlBranch_readable lib body url Hbody). discriminate.
    + destruct (found (base64Candidate lib analysis)) as [candidate|]; [|discriminate].
      destruct (base64Branch_readable body candidate Hbody) as (rule & _ & ->).
      discriminate.
Qed.

(** ** What it reads of the analysis *)

(** X12. [inferMediaMetadata] reads nothing of the analysis but the string
    values, in their order: the field names, the kind and the values of other
    types make no difference. *)
Theorem inferMediaMetadata_reads_string_values :
  forall lib body analysis analysis',
    stringValues (values analysis) = stringValues (values analysis') ->
    inferMediaMetadata lib body analysis = inferMediaMetadata lib body analysis'.
Proof.
  intros lib body analysis analysis' H.
  unfold inferMediaMetadata, urlCandidate, base64Candidate. now rewrite H.
Qed.

Lemma inferMediaMetadata_reads_string_values_witness :
  inferMediaMetadata sampleLib emptyBody
    (mkMessageAnalysis ["n"; "media"] [JNum 3; JStr pictureUrl] media) =
  inferMediaMetadata sampleLib emptyBody
    (mkMessageAnalysis ["x"] [JStr pictureUrl] sticker).
Proof.
  apply inferMediaMetadata_reads_string_values. reflexivity.
Defined.

(** ** The record of the URL branch *)

Lemma truthy_jsOr_r a b : truthy b = true -> truthy (jsOr a b) = true.
Proof. unfold jsOr. now destruct (truthy a) eqn:E. Qed.

Lemma inferMediaTypeFromMime_kind m kind :
  inferMediaTypeFromMime m = Some kind -> In (JStr kind) mediaTypes.
Proof.
  unfold inferMediaTypeFromMime, mediaTypes. destruct (orUndefined m) as [s|]; [|discriminate].
  repeat match goal with
         | |- context [if ?c then _ else _] => destruct c
         end; intros [= <-]; cbn [In]; tauto.
Qed.

Lemma inferMediaTypeFromMime_none m :
  inferMediaTypeFromMime m = None <-> orUndefined m = None.
Proof.
  unfold inferMediaTypeFromMime. destruct (orUndefined m) as [s|]; [|tauto].
  split; [|discriminate].
  repeat match goal with
         | |- context [if ?c then _ else _] => destruct c
         end; discriminate.
Qed.

Lemma orUndefined_idempotent r : orUndefined (orUndefined r) = orUndefined r.
Proof.
  unfold orUndefined. destruct r as [s|]; [|reflexivity].
  destruct (truthyStr s) eqn:E; [now rewrite E | reflexivity].
Qed.

(** X13. When the URL branch fires on a readable body, the record always
    has [media], [mediatype] and [mimetype].  The first two are truthy.  With
    no [mediatype] on the body, [mediatype] is one of image, audio, video and
    document, and it is document when no MIME type is found for the URL.
    With no [mimetype] on the body, [mimetype] is the MIME type found for the
    URL, and the key is there with the value [undefined] when none is
    found. *)
Theorem url_branch_record :
  forall lib body analysis url,
    found (urlCandidate lib analysis) = Some url ->
    isNullish body = false ->
    exists record media_ type_ mime_,
      inferMediaMetadata lib body analysis = Normal record /\
      mediaRef record = Some media_ /\ truthy media_ = true /\
      mediatype record = Some type_ /\ truthy type_ = true /\
      mimetype record = Some mime_ /\
      (truthy (ownProp body "mediatype") = false ->
         In type_ mediaTypes /\
         (orUndefined (mimeLookup lib url) = None -> type_ = JStr "document")) /\
      (truthy (ownProp body "mimetype") = false ->
         mime_ = ofOptString (orUndefined (mimeLookup lib url)) /\
         (orUndefined (mimeLookup lib url) = None -> mime_ = JUndefined)).
Proof.
  intros lib body analysis url Hurl Hbody.
  apply found_Some in Hurl as Hfound. destruct Hfound as [_ Htruthy].
  unfold inferMediaMetadata. rewrite Hurl, (urlBranch_readable lib body url Hbody).
  do 4 eexists. split; [reflexivity|]. cbn [mediaRef mediatype mimetype].
  split; [reflexivity|]. split; [now apply truthy_jsOr_r|].
  split; [reflexivity|]. split; [now apply truthy_jsOr_r|].
  split; [reflexivity|]. rewrite orUndefined_idempotent. split.
  - intros Htype. unfold jsOr. rewrite !Htype. cbv iota.
    destruct (inferMediaTypeFromMime (orUndefined (mimeLookup lib url))) as [kind|] eqn:E;
      cbn [ofOptString].
    + pose proof (inferMediaTypeFromMime_kind _ kind E) as Hkind.
      assert (Hk : truthy (JStr kind) = true).
      { unfold mediaTypes in Hkind; cbn [In] in Hkind.
        destruct Hkind as [[= <-]|[[= <-]|[[= <-]|[[= <-]|[]]]]]; reflexivity. }
      rewrite Hk. split; [exact Hkind|].
      intros Hnone.
      assert (Hn : inferMediaTypeFromMime (orUndefined (mimeLookup lib url)) = None)
        by (apply inferMediaTypeFromMime_none; now rewrite orUndefined_idempotent).
      rewrite Hn in E. discriminate E.
    + cbn [truthy]. split; [unfold mediaTypes; cbn [In]; tauto | reflexivity].
  - intros Hmime. unfold jsOr. rewrite Hmime. split; [reflexivity|].
    now intros ->.
Qed.

Lemma url_branch_record_witness :
  exists record media_ type_ mime_,
    inferMediaMetadata sampleLib emptyBody (analysisOf [JStr dotUrl]) = Normal record /\
    mediaRef record = Some media_ /\ truthy media_ = true /\
    mediatype record = Some type_ /\ truthy type_ = true /\
    mimetype record = Some mime_ /\
    (truthy (ownProp emptyBody "mediatype") = false ->
       In type_ mediaTypes /\
       (orUndefined (mimeLookup sampleLib dotUrl) = None -> type_ = JStr "document")) /\
    (truthy (ownProp emptyBody "mimetype") = false ->
       mime_ = ofOptString (orUndefined (mimeLookup sampleLib dotUrl)) /\
       (orUndefined (mimeLookup sampleLib dotUrl) = None -> mime_ = JUndefined)).
Proof.
  apply (url_branch_record sampleLib emptyBody (analysisOf [JStr dotUrl]) dotUrl);
    reflexivity.
Defined.

(** ** The classes of the base64 branch *)

Lemma base64Branch_no_hint body candidate :
  suppliesNoHint body ->
  exists record,
    base64Branch body candidate = Normal record /\
    (oggMarked candidate = true -> inferredAs record "audio" "audio/ogg" "audio.ogg") /\
    (oggMarked candidate = false -> jpegMarked candidate = true ->
       inferredAs record "image" "image/jpeg" "image.jpg") /\
    (oggMarked candidate = false -> jpegMarked candidate = false ->
       (4000000 < Str.length candidate ->
          inferredAs record "video" "video/mp4" "video.mp4") /\
       (1000000 < Str.length candidate <= 4000000 ->
          inferredAs record "audio" "audio/mpeg" "audio.mp3") /\
       (Str.length candidate <= 1000000 ->
          inferredAs record "image" "image/png" "image.png")).
Proof.
  intros (Hbody & Htype & Hmime & Hname).
  unfold base64Branch. rewrite !(getProp_readable body _ Hbody). cbn [bind].
  fold (oggMarked candidate) (jpegMarked candidate).
  unfold VIDEO_SIZE_THRESHOLD, AUDIO_SIZE_THRESHOLD, inferredAs, jsOr.
  rewrite Htype, Hmime, Hname.
  eexists. split; [reflexivity|].
  destruct (oggMarked candidate); [repeat split; discriminate|].
  destruct (jpegMarked candidate); [repeat split; discriminate|].
  split; [discriminate|]. split; [discriminate|]. intros _ _.
  destruct (4000000 <? Str.length candidate) eqn:Hvideo;
    [apply Z.ltb_lt in Hvideo | apply Z.ltb_ge in Hvideo].
  - repeat split; intros; lia.
  - destruct (1000000 <? Str.length candidate) eqn:Haudio;
      [apply Z.ltb_lt in Haudio | apply Z.ltb_ge in Haudio];
      repeat split; intros; lia.
Qed.

Lemma inferMediaMetadata_base64 lib body analysis candidate :
  found (urlCandidate lib analysis) = None ->
  base64Candidate lib analysis = Some candidate ->
  inferMediaMetadata lib body analysis = base64Branch body candidate.
Proof.
  intros Hurl Hcandidate. unfold inferMediaMetadata.
  now rewrite Hurl, (found_base64Candidate lib analysis candidate Hcandidate).
Qed.

(** X14. In the base64 branch the markers come before the size: with no
    hint on the body, a candidate whose lower-cased text contains "audio/ogg"
    or ".ogg" is an ogg audio, and one without them that contains
    "image/jpeg", ".jpg" or "jpeg" is a jpeg image, however long it is. *)
Theorem base64_markers_come_before_size :
  forall lib body analysis candidate,
    found (urlCandidate lib analysis) = None ->
    base64Candidate lib analysis = Some candidate ->
    suppliesNoHint body ->
    exists record,
      inferMediaMetadata lib body analysis = Normal record /\
      (oggMarked candidate = true -> inferredAs record "audio" "audio/ogg" "audio.ogg") /\
      (oggMarked candidate = false -> jpegMarked candidate = true ->
         inferredAs record "image" "image/jpeg" "image.jpg").
Proof.
  intros lib body analysis candidate Hurl Hcandidate Hbody.
  rewrite (inferMediaMetadata_base64 lib body analysis candidate Hurl Hcandidate).
  destruct (base64Branch_no_hint body candidate Hbody) as (record & -> & Hogg & Hjpeg & _).
  now exists record.
Qed.

(** X15. With no hint on the body and no marker in the candidate, the
    base64 branch goes by the length alone: more than 4,000,000 characters
    are a video, more than 1,000,000 and at most 4,000,000 an mpeg audio, and
    at most 1,000,000 (the candidate has more than 200) a png image. *)
Theorem base64_size_classes :
  forall lib body analysis candidate,
    found (urlCandidate lib analysis) = None ->
    base64Candidate lib analysis = Some candidate ->
    suppliesNoHint body ->
    oggMarked candidate = false ->
    jpegMarked candidate = false ->
    exists record,
      inferMediaMetadata lib body analysis = Normal record /\
      200 < Str.length candidate /\
      (4000000 < Str.length candidate ->
         inferredAs record "video" "video/mp4" "video.mp4") /\
      (1000000 < Str.length candidate <= 4000000 ->
         inferredAs record "audio" "audio/mpeg" "audio.mp3") /\
      (Str.length candidate <= 1000000 ->
         inferredAs record "image" "image/png" "image.png").
Proof.
  intros lib body analysis candidate Hurl Hcandidate Hbody Hogg Hjpeg.
  rewrite (inferMediaMetadata_base64 lib body analysis candidate Hurl Hcandidate).
  destruct (base64Branch_no_hint body candidate Hbody) as (record & -> & _ & _ & Hsize).
  exists record. split; [reflexivity|]. split; [|now apply Hsize].
  now apply (base64Candidate_long lib analysis candidate).
Qed.

(** The sample candidates. *)

Lemma suppliesNoHint_emptyBody : suppliesNoHint emptyBody.
Proof. repeat split. Qed.

Lemma plainBase64_length n : 0 <= n -> Str.length (plainBase64 n) = n.
Proof. apply length_replicate. Qed.

Lemma plainBase64_unmarked n :
  oggMarked (plainBase64 n) = false /\ jpegMarked (plainBase64 n) = false.
Proof.
  unfold oggMarked, jpegMarked, plainBase64.
  rewrite !includes_replicate by discriminate. split; reflexivity.
Qed.

Lemma plainBase64_candidate n :
  200 < n -> n mod 4 = 0 ->
  found (urlCandidate sampleLib (analysisOf [JStr (plainBase64 n)])) = None /\
  base64Candidate sampleLib (analysisOf [JStr (plainBase64 n)]) = Some (plainBase64 n).
Proof.
  intros Hn Hmod. unfold urlCandidate, base64Candidate.
  cbn [analysisOf values stringValues find isURL isBase64 sampleLib].
  unfold sampleIsURL, sampleIsBase64, LONG_STRING_THRESHOLD.
  rewrite (bareWord_long (plainBase64 n)) by (rewrite plainBase64_length; lia).
  rewrite (plainBase64_length n) by lia.
  rewrite (truthyStr_long (plainBase64 n)) by (rewrite plainBase64_length; lia).
  unfold plainBase64.
  rewrite !startsWith_replicate by discriminate.
  rewrite allChars_replicate by reflexivity.
  rewrite Hmod. apply Z.ltb_lt in Hn. rewrite Hn. split; reflexivity.
Qed.

Lemma base64_size_classes_witness :
  (exists record,
     inferMediaMetadata sampleLib emptyBody (analysisOf [JStr (plainBase64 1000000)])
       = Normal record /\
     inferredAs record "image" "image/png" "image.png") /\
  (exists record,
     inferMediaMetadata sampleLib emptyBody (analysisOf [JStr (plainBase64 4000000)])
       = Normal record /\
     inferredAs record "audio" "audio/mpeg" "audio.mp3") /\
  (exists record,
     inferMediaMetadata sampleLib emptyBody (analysisOf [JStr (plainBase64 4000004)])
       = Normal record /\
     inferredAs record "video" "video/mp4" "video.mp4").
Proof.
  assert (Hclass : forall n, 200 < n -> n mod 4 = 0 ->
            exists record,
              inferMediaMetadata sampleLib emptyBody (analysisOf [JStr (plainBase64 n)])
                = Normal record /\
              (4000000 < n -> inferredAs record "video" "video/mp4" "video.mp4") /\
              (1000000 < n <= 4000000 -> inferredAs record "audio" "audio/mpeg" "audio.mp3") /\
              (n <= 1000000 -> inferredAs record "image" "image/png" "image.png")).
  { intros n Hn Hmod.
    destruct (plainBase64_candidate n Hn Hmod) as [Hurl Hcandidate].
    destruct (plainBase64_unmarked n) as [Hogg Hjpeg].
    destruct (base64_size_classes sampleLib emptyBody (analysisOf [JStr (plainBase64 n)])
                (plainBase64 n) Hurl Hcandidate suppliesNoHint_emptyBody Hogg Hjpeg)
      as (record & Hrecord & _ & Hsize).
    rewrite (plainBase64_length n) in Hsize by lia.
    now exists record. }
  split; [|split].
  - destruct (Hclass 1000000) as (record & Hrecord & _ & _ & Hpng); [lia | reflexivity |].
    exists record. split; [exact Hrecord | apply Hpng; lia].
  - destruct (Hclass 4000000) as (record & Hrecord & _ & Hmpeg & _); [lia | reflexivity |].
    exists record. split; [exact Hrecord | apply Hmpeg; lia].
  - destruct (Hclass 4000004) as (record & Hrecord & Hvideo & _); [lia | reflexivity |].
    exists record. split; [exact Hrecord | apply Hvideo; lia].
Defined.

Lemma includes_skip c s first marker :
  first <> Str.lowerChar c ->
  Str.includes (Str.toLowerCase (String c s)) (String first marker) =
  Str.includes (Str.toLowerCase s) (String first marker).
Proof.
  intros Hne. cbn [Str.toLowerCase Str.includes].
  unfold Str.startsWith at 1; cbn [prefix].
  now destruct (ascii_dec first (Str.lowerChar c)).
Qed.

Lemma jpegBase64_length : Str.length jpegBase64 = 5000000.
Proof.
  unfold jpegBase64. rewrite !length_String, plainBase64_length; [reflexivity | discriminate].
Qed.

Lemma jpegBase64_marked : oggMarked jpegBase64 = false /\ jpegMarked jpegBase64 = true.
Proof.
  unfold oggMarked, jpegMarked, jpegBase64. split.
  - rewrite !includes_skip by discriminate.
    unfold plainBase64. now rewrite !includes_replicate by discriminate.
  - apply orb_true_iff. right. reflexivity.
Qed.

Lemma jpegBase64_not_url : sampleIsURL jpegBase64 = false.
Proof.
  unfold sampleIsURL.
  rewrite (bareWord_long jpegBase64) by (rewrite jpegBase64_length; reflexivity).
  rewrite orb_false_r.
  unfold jpegBase64, Str.startsWith. cbn [prefix].
  destruct (ascii_dec "h" "j") as [Heq|_]; [discriminate Heq | reflexivity].
Qed.

Lemma allChars_String p c s : allChars p (String c s) = p c && allChars p s.
Proof. reflexivity. Qed.

Lemma jpegBase64_chars : allChars base64Char jpegBase64 = true.
Proof.
  unfold jpegBase64, plainBase64.
  rewrite !allChars_String, allChars_replicate by reflexivity. reflexivity.
Qed.

Lemma jpegBase64_candidate :
  found (urlCandidate sampleLib (analysisOf [JStr jpegBase64])) = None /\
  base64Candidate sampleLib (analysisOf [JStr jpegBase64]) = Some jpegBase64.
Proof.
  unfold urlCandidate, base64Candidate.
  cbn [analysisOf values stringValues find isURL isBase64 sampleLib].
  unfold sampleIsBase64, LONG_STRING_THRESHOLD.
  rewrite jpegBase64_not_url, jpegBase64_length, jpegBase64_chars.
  rewrite (truthyStr_long jpegBase64) by (rewrite jpegBase64_length; reflexivity).
  split; reflexivity.
Qed.

Lemma base64_markers_come_before_size_witness :
  Str.length jpegBase64 = 5000000 /\
  exists record,
    inferMediaMetadata sampleLib emptyBody (analysisOf [JStr jpegBase64]) = Normal record /\
    inferredAs record "image" "image/jpeg" "image.jpg".
Proof.
  split; [exact jpegBase64_length|].
  destruct jpegBase64_candidate as [Hurl Hcandidate].
  destruct jpegBase64_marked as [Hogg Hjpeg].
  destruct (base64_markers_come_before_size sampleLib emptyBody
              (analysisOf [JStr jpegBase64]) jpegBase64 Hurl Hcandidate
              suppliesNoHint_emptyBody) as (record & Hrecord & _ & Himage).
  exists record. split; [exact Hrecord | now apply Himage].
Defined.

(** * Further properties: paths and composition *)

(** X16. In the analysis of an object without empty keys, a field name with
    no dot and no opening bracket is one of the keys at the top of the
    payload: every path recorded below the top carries a "." or a "[". *)
Theorem plain_paths_are_top_level_keys :
  forall entries name,
    Forall (fun e => fst e <> "") entries ->
    In name (fieldNames (analyzeMessagePayload (JObj entries))) ->
    plain name = true ->
    In name (map fst entries).
Proof.
  intros entries name Hkeys Hin Hplain.
  pose (good := fun n => In n (map fst entries) \/ plain n = false).
  assert (Hall : namesAll good (forEachEntry collectFieldArrays "" entries emptyAccumulator)).
  { apply forEachEntry_top_names.
    - intros n Hn. now right.
    - apply Forall_forall. intros e He. split.
      + rewrite Forall_forall in Hkeys. now apply Hkeys.
      + left. now apply in_map.
    - constructor. }
  unfold namesAll in Hall. rewrite Forall_forall in Hall.
  destruct (Hall name Hin) as [Hkey|Hnot]; [exact Hkey|].
  rewrite Hplain in Hnot. discriminate.
Qed.

Lemma plain_paths_are_top_level_keys_witness :
  In "tags" (map fst [("to", JStr "5511"); ("tags", JArr [JStr "a"; JNum 2]);
                      ("ok", JBool true)]).
Proof.
  apply (plain_paths_are_top_level_keys
           [("to", JStr "5511"); ("tags", JArr [JStr "a"; JNum 2]); ("ok", JBool true)]
           "tags").
  - repeat constructor; discriminate.
  - right; left; reflexivity.
  - reflexivity.
Defined.

Lemma forEachIndexed_scalars recur items :
  Forall (fun item => isContainer item = false) items ->
  forall index acc,
    accFieldNames (forEachIndexed recur "" items index acc) =
    (accFieldNames acc ++ indexKeys index (List.length items))%list.
Proof.
  induction 1 as [|item rest Hitem _ IH]; intros index acc;
    cbn [forEachIndexed List.length indexKeys].
  - now rewrite app_nil_r.
  - rewrite IH, (onEntry_shallow recur (Str.ofIndex index) item acc).
    + unfold shallowPaths; cbn [fst snd].
      destruct item; try discriminate Hitem; now rewrite <- app_assoc.
    + destruct item; try discriminate Hitem; cbn [shallow]; now rewrite Hitem.
Qed.

Lemma below_scalars items :
  Forall (fun item => isContainer item = false) items ->
  flat_map (fun item => item :: below item) items = items.
Proof.
  induction 1 as [|item rest Hitem _ IH]; [reflexivity|]. cbn [flat_map].
  destruct (isContainer_scalar item Hitem) as [-> _]. cbn [app]. now rewrite IH.
Qed.

(** X17. A payload that is itself an array of scalars is recorded under the
    keys "0", "1", ... (the keys [Object.entries] gives its elements), not
    under bracketed indices, with the elements as values. *)
Theorem analyze_top_level_array :
  forall items,
    Forall (fun item => isContainer item = false) items ->
    fieldNames (analyzeMessagePayload (JArr items)) = indexKeys 0 (List.length items) /\
    values (analyzeMessagePayload (JArr items)) = items.
Proof.
  intros items Hitems. split.
  - unfold analyzeMessagePayload; cbn [fieldNames collectFieldArrays].
    now rewrite (forEachIndexed_scalars collectFieldArrays items Hitems 0%nat emptyAccumulator).
  - rewrite analyze_values. cbn [below]. now apply below_scalars.
Qed.

Lemma analyze_top_level_array_witness :
  fieldNames (analyzeMessagePayload (JArr [JStr "a"; JNull; JNum 7])) = ["0"; "1"; "2"] /\
  values (analyzeMessagePayload (JArr [JStr "a"; JNull; JNum 7])) = [JStr "a"; JNull; JNum 7].
Proof.
  apply (analyze_top_level_array [JStr "a"; JNull; JNum 7]). repeat constructor.
Defined.

Lemma below_nullish body : isNullish body = true -> below body = [].
Proof. destruct body; try discriminate; reflexivity. Qed.

(** X18. The two entry points composed: when the analysis is that of the
    body itself and some string below the body passes the URL test (a test
    that refuses the empty string), the call returns a record, and its
    [media] is [body.media] when that is truthy and otherwise the first
    string below the body, parents before children, that passes the test. *)
Theorem infer_on_own_analysis_takes_first_url :
  forall lib body url,
    isURL lib "" = false ->
    find (isURL lib) (stringValues (below body)) = Some url ->
    exists record,
      inferMediaMetadata lib body (analyzeMessagePayload body) = Normal record /\
      mediaRef record = Some (jsOr (ownProp body "media") (JStr url)).
Proof.
  intros lib body url Hempty Hfind.
  assert (Hbody : isNullish body = false).
  { destruct (isNullish body) eqn:E; trivial.
    rewrite (below_nullish body E) in Hfind. discriminate Hfind. }
  assert (Hurl : found (urlCandidate lib (analyzeMessagePayload body)) = Some url).
  { unfold urlCandidate. rewrite analyze_values, Hfind.
    apply find_some in Hfind as [_ Hpass].
    unfold found, orUndefined. destruct url; [congruence | reflexivity]. }
  unfold inferMediaMetadata. rewrite Hurl, (urlBranch_readable lib body url Hbody).
  eexists. split; reflexivity.
Qed.

Lemma infer_on_own_analysis_takes_first_url_witness :
  exists record,
    inferMediaMetadata sampleLib
      (JObj [("caption", JStr "see you at 5"); ("attachments", JArr [JObj [("link", JStr pictureUrl)]])])
      (analyzeMessagePayload
         (JObj [("caption", JStr "see you at 5");
                ("attachments", JArr [JObj [("link", JStr pictureUrl)]])]))
      = Normal record /\
    mediaRef record = Some (JStr pictureUrl).
Proof.
  apply (infer_on_own_analysis_takes_first_url sampleLib
           (JObj [("caption", JStr "see you at 5");
                  ("attachments", JArr [JObj [("link", JStr pictureUrl)]])])
           pictureUrl); reflexivity.
Defined.
